(** * rag_lcel: a retrieval-augmented chat front end

    Shallow embedding of [src/rag_lcel.py]: the per-user vector store, the
    ingestion path [vectorize_text], the windowed conversation memory, the
    prompt template and one question turn with its streaming callback.

    Python strings are [string]s, lists are [list]s, the Cassandra keyspace
    is a finite map from qualified table names to rows, and code that can
    raise runs in a state-and-exception monad in which the effects made
    before a raise stay in the state. *)

From Stdlib Require Import String Ascii List ZArith QArith Lia Bool DecimalString.
From stdpp Require Import gmap strings list fin_maps.

Local Open Scope nat_scope.

(** ** Exceptions and values *)

Inductive Exn :=
  | EmbeddingServiceError
  | StorageUnavailableError
  | GenerationError
  | ConfigurationError
  | UnicodeDecodeError
  | PdfReadError
  | KeyError (key : string)
  | ValueError.

Record Document := mkDocument {
  page_content : string;
  metadata : list (string * string)
}.

Inductive Message :=
  | HumanMessage (content : string)
  | AIMessage (content : string).

Definition content_of (m : Message) : string :=
  match m with HumanMessage c => c | AIMessage c => c end.

(** Floats are modelled by rationals: only the order of scores is used. *)
Definition Embedding := list Q.

Record Row := mkRow {
  body_blob : string;
  vector : Embedding;
  row_metadata : list (string * string)
}.

Definition doc_of_row (r : Row) : Document :=
  mkDocument (body_blob r) (row_metadata r).

(** What lies outside the program: the embedding endpoint, the similarity
    of the database index, the streaming chat model (the tokens it streams,
    then an optional failure), the text forms of documents and messages, the
    decoders of uploaded bytes and the localized strings of
    [localization.csv]. *)
Record Env := mkEnv {
  embed : string -> Exn + Embedding;
  similarity : Embedding -> Embedding -> Q;
  llm_stream : string -> list string * option Exn;
  repr_Document : Document -> string;
  repr_Message : Message -> string;
  decode : string -> Exn + string;
  pdf_load : string -> Exn + list Document;
  lang_dict : string -> string
}.

(** ** Constants (lines 119-121) *)

Definition top_k_vectorstore : nat := 4.
Definition top_k_memory : nat := 3.

(** ** The vector store *)

Module VectorStore.

(** [table_name=f"vector_context_{username}"] (line 170). *)
Definition table_name (username : string) : string :=
  "vector_context_" +:+ username.

Record Cassandra := mkCassandra {
  keyspace : string;
  table : string
}.

(** [load_vectorstore] (lines 165-171); embedding and session are shared. *)
Definition load_vectorstore (username : string) : Cassandra :=
  mkCassandra "vector_preview" (table_name username).

Definition qualified (vs : Cassandra) : string :=
  keyspace vs +:+ "." +:+ table vs.

(** Modelled from the spec: the backing vector database of section 6, one
    table per qualified name holding (chunk text, embedding vector,
    metadata) rows; a table that was never written reads as empty
    (section 4.3). The Cassandra driver and LangChain's store class are
    not part of the repository. *)
Definition rows_of (db : gmap string (list Row)) (vs : Cassandra) : list Row :=
  default [] (db !! qualified vs).

Fixpoint embed_documents (E : Env) (texts : list Document) : Exn + list Row :=
  match texts with
  | [] => inr []
  | d :: rest =>
      match embed E (page_content d) with
      | inl e => inl e
      | inr v =>
          match embed_documents E rest with
          | inl e => inl e
          | inr rows => inr (mkRow (page_content d) v (metadata d) :: rows)
          end
      end
  end.

(** Modelled from the spec: [upsert] of section 4.3, the store's
    [add_documents]: all texts are embedded, then the rows are written
    under the store's own table; duplicates accumulate. *)
Definition add_documents (E : Env) (vs : Cassandra) (docs : list Document)
    (db : gmap string (list Row)) : Exn + gmap string (list Row) :=
  match embed_documents E docs with
  | inl e => inl e
  | inr rows => inr (<[qualified vs := rows_of db vs ++ rows]> db)
  end.

(** Ranking: stable insertion sort, best score first. *)
Fixpoint insert_by (score : Row -> Q) (r : Row) (l : list Row) : list Row :=
  match l with
  | [] => [r]
  | x :: rest =>
      if Qle_bool (score x) (score r) && negb (Qle_bool (score r) (score x))
      then r :: l
      else x :: insert_by score r rest
  end.

Definition rank (score : Row -> Q) (l : list Row) : list Row :=
  fold_right (insert_by score) [] l.

(** Modelled from the spec: [search] of section 4.3, the store's
    similarity search: at most [k] rows of the store's own table, ranked
    by similarity to the embedded query. *)
Definition similarity_search (E : Env) (vs : Cassandra) (query : string)
    (k : nat) (db : gmap string (list Row)) : Exn + list Document :=
  match embed E query with
  | inl e => inl e
  | inr qv =>
      inr (map doc_of_row
             (take k (rank (fun r => similarity E qv (vector r)) (rows_of db vs))))
  end.

(** Modelled from the spec: [clear] of section 4.3, the store's [clear]:
    every row of the store's own table is deleted. *)
Definition clear (vs : Cassandra) (db : gmap string (list Row))
    : gmap string (list Row) :=
  <[qualified vs := []]> db.

(** [drop_vector_data] (lines 112-113):
    [DROP TABLE IF EXISTS vector_preview.vector_context_{username}]. *)
Definition drop_vector_data (username : string) (db : gmap string (list Row))
    : gmap string (list Row) :=
  delete ("vector_preview.vector_context_" +:+ username) db.

(** What the tenants do to the store, in order. *)
Inductive Event :=
  | Upsert (username : string) (docs : list Document)
  | Clear (username : string)
  | Drop (username : string).

Definition event_user (ev : Event) : string :=
  match ev with Upsert u _ => u | Clear u => u | Drop u => u end.

Definition step (E : Env) (db : gmap string (list Row)) (ev : Event)
    : gmap string (list Row) :=
  match ev with
  | Upsert u docs =>
      match add_documents E (load_vectorstore u) docs db with
      | inl _ => db
      | inr db' => db'
      end
  | Clear u => clear (load_vectorstore u) db
  | Drop u => drop_vector_data u db
  end.

Definition run (E : Env) (trace : list Event) (db : gmap string (list Row))
    : gmap string (list Row) :=
  fold_left (step E) trace db.

End VectorStore.

(** ** Python string primitives used by the program *)

Module Py.

Definition nl : string := String "010"%char "".

(** [s.endswith(suffix)]. *)
Definition endswith (s suffix : string) : bool :=
  let n := String.length s in
  let m := String.length suffix in
  (m <=? n) && String.eqb (substring (n - m) m s) suffix.

(** [str(l)] of a list: the elements' reprs between brackets. *)
Definition str_list {A : Type} (repr : A -> string) (l : list A) : string :=
  "[" +:+ String.concat ", " (map repr l) +:+ "]".

(** [str(d)] of a dict whose keys are plain identifiers; the values are
    given by their reprs. *)
Definition str_dict (items : list (string * string)) : string :=
  "{" +:+ String.concat ", "
            (map (fun kv => "'" +:+ fst kv +:+ "': " +:+ snd kv) items) +:+ "}".

(** [str(n)] of a non-negative int. *)
Definition str_nat (n : nat) : string :=
  NilZero.string_of_uint (Nat.to_uint n).

(** [template.format] with keyword arguments, for templates whose replacement fields are
    plain names: doubled braces are literal braces, [{name}] is replaced by
    the value of [name], in one pass over the template. *)
Inductive Piece :=
  | Literal (s : string)
  | Field (name : string).

Inductive Mode := InText | InField.

Definition flush (acc : string) : list Piece :=
  if String.eqb acc "" then [] else [Literal acc].

Definition snoc (acc : string) (c : ascii) : string := acc +:+ String c "".

Definition cons_pieces (ps : list Piece) (r : Exn + list Piece) : Exn + list Piece :=
  match r with
  | inl e => inl e
  | inr qs => inr (ps ++ qs)
  end.

Fixpoint scan (mode : Mode) (acc : string) (s : string) : Exn + list Piece :=
  match s with
  | EmptyString =>
      match mode with
      | InText => inr (flush acc)
      | InField => inl ValueError
      end
  | String c rest =>
      match mode with
      | InText =>
          if Ascii.eqb c "{" then
            match rest with
            | String c' rest' =>
                if Ascii.eqb c' "{" then scan InText (snoc acc "{") rest'
                else cons_pieces (flush acc) (scan InField "" rest)
            | EmptyString => inl ValueError
            end
          else if Ascii.eqb c "}" then
            match rest with
            | String c' rest' =>
                if Ascii.eqb c' "}" then scan InText (snoc acc "}") rest'
                else inl ValueError
            | EmptyString => inl ValueError
            end
          else scan InText (snoc acc c) rest
      | InField =>
          if Ascii.eqb c "}" then cons_pieces [Field acc] (scan InText "" rest)
          else if Ascii.eqb c "{" then inl ValueError
          else scan InField (snoc acc c) rest
      end
  end.

Definition parse (template : string) : Exn + list Piece :=
  scan InText "" template.

Fixpoint fill (ps : list Piece) (kwargs : gmap string string) : Exn + string :=
  match ps with
  | [] => inr ""
  | Literal s :: rest =>
      match fill rest kwargs with
      | inl e => inl e
      | inr out => inr (s +:+ out)
      end
  | Field name :: rest =>
      match kwargs !! name with
      | None => inl (KeyError name)
      | Some v =>
          match fill rest kwargs with
          | inl e => inl e
          | inr out => inr (v +:+ out)
          end
      end
  end.

Definition format (template : string) (kwargs : gmap string string) : Exn + string :=
  match parse template with
  | inl e => inl e
  | inr ps => fill ps kwargs
  end.

(** A text without a raw line feed, such as the repr of a string, in which
    a line feed is written with a backslash. *)
Definition no_line_feed (s : string) : bool :=
  forallb (fun c => negb (Ascii.eqb c "010")) (list_ascii_of_string s).

Fixpoint escape_line_feeds (s : string) : string :=
  match s with
  | EmptyString => EmptyString
  | String c rest =>
      if Ascii.eqb c "010" then String "\" (String "n" (escape_line_feeds rest))
      else String c (escape_line_feeds rest)
  end.

End Py.

(** ** Conversation memory *)

Module Memory.

Record MemoryTurn := mkTurn {
  question : string;
  answer : string
}.

Record ConversationBufferWindowMemory := mkMemory {
  k : nat;
  buffer : list MemoryTurn
}.

(** [ConversationBufferWindowMemory(return_messages=True, k=top_k_memory)]
    (lines 210-213). *)
Definition new : ConversationBufferWindowMemory := mkMemory top_k_memory [].

(** Modelled from the spec: [append] of section 4.4 (LangChain's memory
    class is not part of the repository): if the buffer already holds [k]
    turns the oldest is evicted, then the turn is appended. *)
Definition append (t : MemoryTurn) (m : ConversationBufferWindowMemory)
    : ConversationBufferWindowMemory :=
  let kept := if length (buffer m) =? k m then drop 1 (buffer m) else buffer m in
  mkMemory (k m) (kept ++ [t]).

(** Modelled from the spec: [snapshot] of section 4.4, oldest to newest. *)
Definition snapshot (m : ConversationBufferWindowMemory) : list MemoryTurn :=
  buffer m.

(** Modelled from the spec: [clear] of section 4.4. *)
Definition clear (m : ConversationBufferWindowMemory)
    : ConversationBufferWindowMemory :=
  mkMemory (k m) [].

(** [memory.save_context({'question': question}, {'output': output})]
    (line 290). *)
Definition save_context (question output : string)
    (m : ConversationBufferWindowMemory) : ConversationBufferWindowMemory :=
  append (mkTurn question output) m.

Definition messages_of (t : MemoryTurn) : list Message :=
  [HumanMessage (question t); AIMessage (answer t)].

(** [memory.load_memory_variables({})] (line 237): with
    [return_messages=True] the dict [{'history': [messages]}]. *)
Definition load_memory_variables (m : ConversationBufferWindowMemory)
    : list (string * list Message) :=
  [("history", concat (map messages_of (snapshot m)))].

Definition appends (ts : list MemoryTurn) (m : ConversationBufferWindowMemory)
    : ConversationBufferWindowMemory :=
  fold_left (fun acc t => append t acc) ts m.

End Memory.

(** ** Document chunker *)

Module Chunker.

Record Chunk := mkChunk {
  text : string;
  sequence_index : nat
}.

Inductive Boundary := Paragraph | Sentence | Whitespace.

Definition is_newline (c : ascii) : bool := Ascii.eqb c "010".

Definition is_whitespace (c : ascii) : bool :=
  Ascii.eqb c " " || Ascii.eqb c "010" || Ascii.eqb c "009" || Ascii.eqb c "013".

Definition is_sentence_end (c : ascii) : bool :=
  Ascii.eqb c "." || Ascii.eqb c "!" || Ascii.eqb c "?".

Definition char_at (w : list ascii) (i : nat) : ascii := nth i w "000"%char.

(** Whether cutting [w] after its first [c] characters falls on a boundary
    of the given kind: after a blank line, after the space that follows the
    end of a sentence, after a whitespace character. *)
Definition boundary_at (b : Boundary) (w : list ascii) (c : nat) : bool :=
  match b with
  | Paragraph =>
      (2 <=? c) && is_newline (char_at w (c - 2)) && is_newline (char_at w (c - 1))
  | Sentence =>
      (2 <=? c) && is_sentence_end (char_at w (c - 2))
                && is_whitespace (char_at w (c - 1))
  | Whitespace =>
      (1 <=? c) && is_whitespace (char_at w (c - 1))
  end.

(** The largest cut [lo < c <= lo + n] on a boundary of kind [b], if any. *)
Fixpoint last_cut (b : Boundary) (w : list ascii) (lo n : nat) : option nat :=
  match n with
  | 0 => None
  | S n' =>
      if boundary_at b w (lo + n) then Some (lo + n)
      else last_cut b w lo n'
  end.

(** Modelled from the spec: section 4.1, the cut of one segment: natural
    boundaries are preferred (paragraph, then sentence, then whitespace)
    before the hard cut at [chunk_size]; the cut lies beyond the overlap, so
    that every segment brings new text. *)
Definition cut_point (w : list ascii) (chunk_size overlap : nat) : nat :=
  match last_cut Paragraph w overlap (chunk_size - overlap) with
  | Some c => c
  | None =>
      match last_cut Sentence w overlap (chunk_size - overlap) with
      | Some c => c
      | None =>
          match last_cut Whitespace w overlap (chunk_size - overlap) with
          | Some c => c
          | None => chunk_size
          end
      end
  end.

(** Modelled from the spec: section 4.1, segments of at most [chunk_size]
    characters in which each segment starts [overlap] characters before the
    end of the previous one. LangChain's RecursiveCharacterTextSplitter,
    which the program calls, is not part of the repository. The fuel is the
    length of the text, which every step shortens. *)
Fixpoint segments_from (fuel chunk_size overlap : nat) (t : list ascii)
    : list (list ascii) :=
  match fuel with
  | 0 => []
  | S fuel' =>
      if length t <=? chunk_size then [t]
      else
        let c := cut_point (take chunk_size t) chunk_size overlap in
        take c t :: segments_from fuel' chunk_size overlap (drop (c - overlap) t)
  end.

Definition segments (chunk_size overlap : nat) (t : list ascii)
    : list (list ascii) :=
  segments_from (length t) chunk_size overlap t.

Fixpoint number (i : nat) (l : list (list ascii)) : list Chunk :=
  match l with
  | [] => []
  | s :: rest => mkChunk (string_of_list_ascii s) i :: number (S i) rest
  end.

(** Modelled from the spec: [chunk(raw_text, chunk_size, overlap)] of
    section 4.1; [overlap < chunk_size] is required. *)
Definition chunk (raw_text : string) (chunk_size overlap : nat)
    : Exn + list Chunk :=
  if overlap <? chunk_size
  then inr (number 0 (segments chunk_size overlap (list_ascii_of_string raw_text)))
  else inl ConfigurationError.

(** Putting the chunk texts together again: the first chunk whole, each
    later one without its first [overlap] characters. *)
Definition reassemble_list (overlap : nat) (l : list (list ascii)) : list ascii :=
  match l with
  | [] => []
  | s :: rest => s ++ concat (map (drop overlap) rest)
  end.

Definition reassemble (overlap : nat) (texts : list string) : string :=
  string_of_list_ascii (reassemble_list overlap (map list_ascii_of_string texts)).

(** The text shared by two consecutive chunks: the last [overlap]
    characters of the first are the first [overlap] characters of the
    second. *)
Definition shares (overlap : nat) (a b : list ascii) : bool :=
  (overlap <=? length a) && (overlap <=? length b)
  && bool_decide (drop (length a - overlap) a = take overlap b).

Fixpoint consecutive_share (overlap : nat) (l : list (list ascii)) : bool :=
  match l with
  | a :: (b :: _) as rest => shares overlap a b && consecutive_share overlap rest
  | _ => true
  end.

(** A text without natural boundaries: every boundary above ends on a
    whitespace character, so a text without whitespace has none. *)
Definition no_boundary (t : list ascii) : bool :=
  forallb (fun c => negb (is_whitespace c)) t.

(** [RecursiveCharacterTextSplitter(chunk_size=1500, chunk_overlap=200)]
    (lines 81-84 and 103-106). *)
Definition chunk_size : nat := 1500.
Definition chunk_overlap : nat := 200.

(** [text_splitter.create_documents(texts)]: the chunks of each text as
    documents. *)
Definition documents_of (meta : list (string * string)) (cs : list Chunk)
    : list Document :=
  map (fun c => mkDocument (text c) meta) cs.

Fixpoint create_documents (texts : list string) : Exn + list Document :=
  match texts with
  | [] => inr []
  | t :: rest =>
      match chunk t chunk_size chunk_overlap with
      | inl e => inl e
      | inr cs =>
          match create_documents rest with
          | inl e => inl e
          | inr ds => inr (documents_of [] cs ++ ds)
          end
      end
  end.

(** [text_splitter.split_documents(docs)]: the same for documents, each
    chunk keeping the metadata of its page. *)
Fixpoint split_documents (docs : list Document) : Exn + list Document :=
  match docs with
  | [] => inr []
  | d :: rest =>
      match chunk (page_content d) chunk_size chunk_overlap with
      | inl e => inl e
      | inr cs =>
          match split_documents rest with
          | inl e => inl e
          | inr ds => inr (documents_of (metadata d) cs ++ ds)
          end
      end
  end.

End Chunker.

(** ** The application: state, effects and the two user actions *)

Module App.

Import VectorStore Memory.

Record UploadedFile := mkUpload {
  name : string;
  data : string
}.

(** The state the script works on: the keyspace, the two entries of
    [st.session_state], and what was put on the page (the chat messages
    drawn, the successive contents of the response placeholder, the
    [st.info] notices) and in the temporary directory. *)
Record State := mkState {
  db : gmap string (list Row);
  messages : list Message;
  memory : ConversationBufferWindowMemory;
  chat : list (string * string);
  placeholder : list string;
  notices : list string;
  tempfiles : list (string * string)
}.

(** A computation returns the state it reached together with a value or the
    exception it raised: what was done before a raise stays done. *)
Definition M (A : Type) : Type := State -> State * (Exn + A).

Definition ret {A : Type} (a : A) : M A := fun s => (s, inr a).

Definition raise {A : Type} (e : Exn) : M A := fun s => (s, inl e).

Definition bind {A B : Type} (m : M A) (f : A -> M B) : M B :=
  fun s =>
    match m s with
    | (s', inl e) => (s', inl e)
    | (s', inr a) => f a s'
    end.

Definition lift {A : Type} (r : Exn + A) : M A := fun s => (s, r).

Definition gets {A : Type} (f : State -> A) : M A := fun s => (s, inr (f s)).

Definition modify (f : State -> State) : M unit := fun s => (f s, inr tt).

Declare Scope app_scope.
Delimit Scope app_scope with app.
Notation "x <- m ;; f" := (bind m (fun x => f))
  (at level 100, m at next level, right associativity) : app_scope.
Notation "m ;;; f" := (bind m (fun _ => f))
  (at level 100, right associativity) : app_scope.
Local Open Scope app_scope.

Definition set_db (d : gmap string (list Row)) (s : State) : State :=
  mkState d (messages s) (memory s) (chat s) (placeholder s) (notices s) (tempfiles s).

Definition set_messages (ms : list Message) (s : State) : State :=
  mkState (db s) ms (memory s) (chat s) (placeholder s) (notices s) (tempfiles s).

Definition set_memory (m : ConversationBufferWindowMemory) (s : State) : State :=
  mkState (db s) (messages s) m (chat s) (placeholder s) (notices s) (tempfiles s).

Definition set_chat (c : list (string * string)) (s : State) : State :=
  mkState (db s) (messages s) (memory s) c (placeholder s) (notices s) (tempfiles s).

Definition set_placeholder (p : list string) (s : State) : State :=
  mkState (db s) (messages s) (memory s) (chat s) p (notices s) (tempfiles s).

Definition set_notices (n : list string) (s : State) : State :=
  mkState (db s) (messages s) (memory s) (chat s) (placeholder s) n (tempfiles s).

Definition set_tempfiles (t : list (string * string)) (s : State) : State :=
  mkState (db s) (messages s) (memory s) (chat s) (placeholder s) (notices s) t.

(** [st.info(text)]. *)
Definition st_info (text : string) : M unit :=
  modify (fun s => set_notices (notices s ++ [text]) s).

(** [container.markdown(text)] on the response placeholder: the new content
    replaces the old one; the contents are kept in order. *)
Definition placeholder_markdown (text : string) : M unit :=
  modify (fun s => set_placeholder (placeholder s ++ [text]) s).

(** [vectorstore.add_documents(docs)]. *)
Definition store_add (E : Env) (vs : Cassandra) (docs : list Document) : M unit :=
  fun s =>
    match add_documents E vs docs (db s) with
    | inl e => (s, inl e)
    | inr d => (set_db d s, inr tt)
    end.

(** [vectorize_text] (lines 76-109), for the store of the logged-in user. *)
Definition vectorize_text (E : Env) (vs : Cassandra)
    (uploaded_file : option UploadedFile) : M unit :=
  match uploaded_file with
  | None => ret tt
  | Some f =>
      (if Py.endswith (name f) "txt" then
         decoded <- lift (decode E (data f)) ;;
         texts <- lift (Chunker.create_documents [decoded]) ;;
         store_add E vs texts ;;;
         st_info (Py.str_nat (length texts) +:+ " " +:+ lang_dict E "load_text")
       else ret tt) ;;;
      (if Py.endswith (name f) "pdf" then
         modify (fun s => set_tempfiles (tempfiles s ++ [(name f, data f)]) s) ;;;
         docs <- lift (pdf_load E (data f)) ;;
         pages <- lift (Chunker.split_documents docs) ;;
         store_add E vs pages ;;;
         st_info (Py.str_nat (length pages) +:+ " " +:+ lang_dict E "load_pdf")
       else ret tt)
  end.

(** The streaming callback (lines 32-39). *)
Record StreamHandler := mkHandler {
  handler_text : string
}.

Definition cursor : string := "▌".

Definition on_llm_new_token (token : string) (h : StreamHandler) : M StreamHandler :=
  let text := handler_text h +:+ token in
  placeholder_markdown (text +:+ cursor) ;;;
  ret (mkHandler text).

Fixpoint stream (tokens : list string) (h : StreamHandler) : M StreamHandler :=
  match tokens with
  | [] => ret h
  | token :: rest =>
      h' <- on_llm_new_token token h ;;
      stream rest h'
  end.

(** The prompt template (lines 257-272). *)
Definition indent : string := "            ".

Definition template : string :=
  String.concat Py.nl
    [ "";
      indent +:+ "You're a helpful AI assistent tasked to answer the user's questions.";
      indent +:+ "You're friendly and you answer extensively with multiple sentences. You prefer to use bulletpoints to summarize.";
      indent +:+ "If you don't know the answer, just say 'I do not know the answer'.";
      "";
      indent +:+ "Use the following context to answer the question:";
      indent +:+ "{context}";
      "";
      indent +:+ "Use the previous chat history to answer the question:";
      indent +:+ "{history}";
      "";
      indent +:+ "Question:";
      indent +:+ "{question}";
      "";
      indent +:+ "Answer in the user's language:";
      indent ].

(** The four fixed parts of the template, around its three slots. *)
Definition instruction : string :=
  String.concat Py.nl
    [ "";
      indent +:+ "You're a helpful AI assistent tasked to answer the user's questions.";
      indent +:+ "You're friendly and you answer extensively with multiple sentences. You prefer to use bulletpoints to summarize.";
      indent +:+ "If you don't know the answer, just say 'I do not know the answer'.";
      "";
      indent +:+ "Use the following context to answer the question:";
      indent ].

Definition history_heading : string :=
  String.concat Py.nl
    [ ""; ""; indent +:+ "Use the previous chat history to answer the question:"; indent ].

Definition question_heading : string :=
  String.concat Py.nl [ ""; ""; indent +:+ "Question:"; indent ].

Definition closing : string :=
  String.concat Py.nl [ ""; ""; indent +:+ "Answer in the user's language:"; indent ].

(** The prompt with the three slots filled by the given texts. *)
Definition filled (context history question : string) : string :=
  instruction +:+ context +:+ history_heading +:+ history
  +:+ question_heading +:+ question +:+ closing.

(** The values the chain hands to the template (lines 276-280): the list of
    retrieved documents, the dict of memory variables and the question;
    [format] turns the first two into text with [str]. *)
Definition chain_kwargs (E : Env) (context : list Document)
    (history : list (string * list Message)) (question : string)
    : gmap string string :=
  <["context" := Py.str_list (repr_Document E) context]>
  (<["history" := Py.str_dict
        (map (fun kv => (fst kv, Py.str_list (repr_Message E) (snd kv))) history)]>
  (<["question" := question]> ∅)).

Definition chain_prompt (E : Env) (context : list Document)
    (history : list (string * list Message)) (question : string) : Exn + string :=
  Py.format template (chain_kwargs E context history question).

(** Modelled from the spec: section 4.5 step 4, the content of the response
    of the streaming model call is the concatenation of the streamed
    tokens. *)
Definition response_content (tokens : list string) : string :=
  String.concat "" tokens.

(** [chain.invoke({'question': question, 'history': history})] (line 282)
    with the chain of lines 276-280: retrieval, prompt, streaming model. *)
Definition chain_invoke (E : Env) (vs : Cassandra) (callback : StreamHandler)
    (question : string) (history : list (string * list Message)) : M string :=
  context <- (fun s => (s, similarity_search E vs question top_k_vectorstore (db s))) ;;
  prompt <- lift (chain_prompt E context history question) ;;
  stream (fst (llm_stream E prompt)) callback ;;;
  match snd (llm_stream E prompt) with
  | Some e => raise e
  | None => ret (response_content (fst (llm_stream E prompt)))
  end.

(** One question turn (lines 224-293). *)
Definition turn (E : Env) (vs : Cassandra) (question : string) : M unit :=
  modify (fun s => set_messages (messages s ++ [HumanMessage question]) s) ;;;
  modify (fun s => set_chat (chat s ++ [("human", question)]) s) ;;;
  modify (set_placeholder []) ;;;
  history <- gets (fun s => load_memory_variables (memory s)) ;;
  response <- chain_invoke E vs (mkHandler "") question history ;;
  placeholder_markdown response ;;;
  modify (fun s => set_memory (save_context question response (memory s)) s) ;;;
  modify (fun s => set_messages (messages s ++ [AIMessage response]) s).

(** The state of a turn once the question is recorded and drawn, before
    the chain is invoked (lines 226-235). *)
Definition asked (q : string) (s : State) : State :=
  set_placeholder [] (set_chat (chat s ++ [("human", q)])
                        (set_messages (messages s ++ [HumanMessage q]) s)).

(** The drop form (lines 189-198), shown to one user only. *)
Definition drop_form (E : Env) (username : string) (submitted : bool) : M unit :=
  if String.eqb username "michel" && submitted then
    modify (fun s => set_db (VectorStore.clear (load_vectorstore username) (db s)) s) ;;;
    modify (set_messages [AIMessage (lang_dict E "assistant_welcome")]) ;;;
    modify (fun s => set_memory (Memory.clear (memory s)) s)
  else ret tt.

(** The session entries created on the first run (lines 209-217). *)
Definition init_session (E : Env) (d : gmap string (list Row)) : State :=
  mkState d [AIMessage (lang_dict E "assistant_welcome")] Memory.new [] [] [] [].

End App.

(** ** Python dicts in insertion order *)

Module Dict.

Section Dict.

Context {K V : Type} `{EqDecision K}.

(** [d[k] = v]: the value of an existing key is replaced in place, a new
    key is added at the end. *)
Fixpoint setitem (k : K) (v : V) (d : list (K * V)) : list (K * V) :=
  match d with
  | [] => [(k, v)]
  | (k', v') :: rest =>
      if decide (k' = k) then (k, v) :: rest
      else (k', v') :: setitem k v rest
  end.

(** [d[k]], [None] standing for the KeyError. *)
Fixpoint getitem (k : K) (d : list (K * V)) : option V :=
  match d with
  | [] => None
  | (k', v) :: rest => if decide (k' = k) then Some v else getitem k rest
  end.

(** [{k: v for ...}] over the items in order. *)
Definition of_items (items : list (K * V)) : list (K * V) :=
  fold_left (fun d kv => setitem (fst kv) (snd kv) d) items [].

End Dict.

End Dict.

(** ** The two CSV bundles (lines 57-73) *)

Module Bundles.

(** [{keys[i]: values[i] for i in range(len(keys))}]. *)
Definition comprehension {K V : Type} `{EqDecision K} (keys : list K)
    (values : list V) : list (K * V) :=
  Dict.of_items
    (omap (fun i => match keys !! i, values !! i with
                    | Some k, Some v => Some (k, v)
                    | _, _ => None
                    end)
       (seq 0 (length keys))).

(** [localization(locale)] (lines 58-64). The CSV file and pandas are not
    part of the program: [query locale] stands for what
    [pd.read_csv('localization.csv').query(f"locale == '{locale}'")] gives,
    the cells of the key and value columns of the frame row by row, of
    whatever type pandas read them as, or the exception raised by reading,
    by the query or by taking the two columns. Nothing is assumed on how
    pandas reads the file or evaluates the query. *)
Definition localization {X K V : Type} `{EqDecision K}
    (query : string -> X + list (K * V)) (locale : string)
    : X + list (K * V) :=
  match query locale with
  | inl e => inl e
  | inr df => inr (comprehension (map fst df) (map snd df))
  end.

(** [rails(username)] (lines 67-73), with [query username] for
    [pd.read_csv('rails.csv').query(f"username == '{username}'")] in the
    same way. *)
Definition rails {X K V : Type} `{EqDecision K}
    (query : string -> X + list (K * V)) (username : string)
    : X + list (K * V) :=
  match query username with
  | inl e => inl e
  | inr df => inr (comprehension (map fst df) (map snd df))
  end.

End Bundles.

(** ** The script: one run of the page (lines 138-306) *)

Module Script.

Inductive Raised :=
  | Exception (e : Exn)
  | IntKeyError (key : Z)
  | AttributeError (name : string)
  | TypeError.

(** What [yaml.load] returns. A mapping is a Python dict, its keys
    distinct. *)
#[local] Unset Elimination Schemes.
Inductive Yaml :=
  | YNull
  | YScalar (s : string)
  | YSeq (items : list Yaml)
  | YMap (items : list (string * Yaml)).
#[local] Set Elimination Schemes.

(** [y[key]] for a string key: only a mapping can be indexed by it. *)
Definition index (y : Yaml) (key : string) : Raised + Yaml :=
  match y with
  | YMap items =>
      match Dict.getitem key items with
      | Some v => inr v
      | None => inl (Exception (KeyError key))
      end
  | _ => inl TypeError
  end.

Record Authenticate := mkAuthenticate {
  credentials : Yaml;
  cookie_name : Yaml;
  cookie_key : Yaml;
  cookie_expiry_days : Yaml;
  preauthorized : Yaml
}.

(** [get_authenticator] (lines 46-55) on the loaded [credentials.yaml]: the
    five arguments are evaluated from left to right. *)
Definition get_authenticator (config : Yaml) : Raised + Authenticate :=
  match index config "credentials" with
  | inl e => inl e
  | inr credentials =>
  match index config "cookie" with
  | inl e => inl e
  | inr cookie1 =>
  match index cookie1 "name" with
  | inl e => inl e
  | inr name =>
  match index config "cookie" with
  | inl e => inl e
  | inr cookie2 =>
  match index cookie2 "key" with
  | inl e => inl e
  | inr key =>
  match index config "cookie" with
  | inl e => inl e
  | inr cookie3 =>
  match index cookie3 "expiry_days" with
  | inl e => inl e
  | inr expiry_days =>
  match index config "preauthorized" with
  | inl e => inl e
  | inr preauthorized =>
      inr (mkAuthenticate credentials name key expiry_days preauthorized)
  end end end end end end end end.

Inductive Widget :=
  | Title (text : string)
  | Subheader (text : string)
  | Caption (text : string)
  | Markdown (text : string)
  | ErrorBox (text : string)
  | WarningBox (text : string).

(** What the widgets of one run return: the login, the two forms and the
    chat input. *)
Record Inputs := mkInputs {
  authentication_status : option bool;
  username : string;
  upload_submitted : bool;
  uploaded_file : option App.UploadedFile;
  drop_submitted : bool;
  question : option string
}.

(** The keyspace, the two entries of [st.session_state], each of which may
    be missing, and what was put on the page. *)
Record World := mkWorld {
  db : gmap string (list Row);
  session_messages : option (list Message);
  session_memory : option Memory.ConversationBufferWindowMemory;
  chat : list (string * string);
  placeholder : list string;
  notices : list string;
  tempfiles : list (string * string);
  widgets : list Widget
}.

Definition M (A : Type) : Type := World -> World * (Raised + A).

Definition ret {A : Type} (a : A) : M A := fun w => (w, inr a).

Definition raise {A : Type} (e : Raised) : M A := fun w => (w, inl e).

Definition bind {A B : Type} (m : M A) (f : A -> M B) : M B :=
  fun w =>
    match m w with
    | (w', inl e) => (w', inl e)
    | (w', inr a) => f a w'
    end.

Definition modify (f : World -> World) : M unit := fun w => (f w, inr tt).

Definition lift {A : Type} (r : Raised + A) : M A := fun w => (w, r).

Declare Scope script_scope.
Delimit Scope script_scope with script.
Notation "x <- m ;; f" := (bind m (fun x => f))
  (at level 100, m at next level, right associativity) : script_scope.
Notation "m ;;; f" := (bind m (fun _ => f))
  (at level 100, right associativity) : script_scope.
Local Open Scope script_scope.

Definition set_db (d : gmap string (list Row)) (w : World) : World :=
  mkWorld d (session_messages w) (session_memory w) (chat w) (placeholder w)
    (notices w) (tempfiles w) (widgets w).

Definition set_session_messages (ms : option (list Message)) (w : World) : World :=
  mkWorld (db w) ms (session_memory w) (chat w) (placeholder w)
    (notices w) (tempfiles w) (widgets w).

Definition set_session_memory
    (m : option Memory.ConversationBufferWindowMemory) (w : World) : World :=
  mkWorld (db w) (session_messages w) m (chat w) (placeholder w)
    (notices w) (tempfiles w) (widgets w).

Definition set_chat (c : list (string * string)) (w : World) : World :=
  mkWorld (db w) (session_messages w) (session_memory w) c (placeholder w)
    (notices w) (tempfiles w) (widgets w).

Definition add_widgets (xs : list Widget) (w : World) : World :=
  mkWorld (db w) (session_messages w) (session_memory w) (chat w)
    (placeholder w) (notices w) (tempfiles w) (widgets w ++ xs).

Definition draw (x : Widget) : M unit := modify (add_widgets [x]).

(** The state a function of the application sees, for given session
    entries, and the world after it has run. *)
Definition to_app (ms : list Message) (m : Memory.ConversationBufferWindowMemory)
    (w : World) : App.State :=
  App.mkState (db w) ms m (chat w) (placeholder w) (notices w) (tempfiles w).

Definition of_app (s : App.State) (ms : option (list Message))
    (m : option Memory.ConversationBufferWindowMemory) (w : World) : World :=
  mkWorld (App.db s) ms m (App.chat s) (App.placeholder s) (App.notices s)
    (App.tempfiles s) (widgets w).

Definition raised {A : Type} (r : Exn + A) : Raised + A :=
  match r with
  | inl e => inl (Exception e)
  | inr a => inr a
  end.

(** A function that works on the store and the page only, such as
    [vectorize_text]: the session entries stay as they are, present or
    not. *)
Definition on_store (c : App.M unit) : M unit :=
  fun w =>
    let r := c (to_app (default [] (session_messages w))
                  (default Memory.new (session_memory w)) w) in
    (of_app (fst r) (session_messages w) (session_memory w) w, raised (snd r)).

(** A function that works on the session entries, such as a turn: reading a
    missing entry of [st.session_state] raises. *)
Definition on_session (c : App.M unit) : M unit :=
  fun w =>
    match session_messages w, session_memory w with
    | None, _ => (w, inl (AttributeError "messages"))
    | Some _, None => (w, inl (AttributeError "memory"))
    | Some ms, Some m =>
        let r := c (to_app ms m w) in
        (of_app (fst r) (Some (App.messages (fst r))) (Some (App.memory (fst r))) w,
         raised (snd r))
    end.

(** The drop form (lines 189-198). *)
Definition drop_form (E : Env) (i : Inputs) : M unit :=
  if String.eqb (username i) "michel" then
    draw (Caption (lang_dict E "drop_context")) ;;;
    if drop_submitted i then
      modify (fun w =>
        set_db (VectorStore.clear (VectorStore.load_vectorstore (username i)) (db w)) w) ;;;
      modify (set_session_messages
                (Some [AIMessage (lang_dict E "assistant_welcome")])) ;;;
      fun w =>
        match session_memory w with
        | None => (w, inl (AttributeError "memory"))
        | Some m => (set_session_memory (Some (Memory.clear m)) w, inr tt)
        end
    else ret tt
  else ret tt.

Definition str_int (z : Z) : string :=
  NilZero.string_of_int (Z.to_int z).

(** The numbered lines of the rails (lines 204-206); the keys come from the
    dict itself, so their values are there. *)
Fixpoint draw_items (items : list (Z * string)) : M unit :=
  match items with
  | [] => ret tt
  | (i, v) :: rest =>
      (if (1 <? i)%Z then draw (Markdown (str_int (i - 1) +:+ ". " +:+ v))
       else ret tt) ;;;
      draw_items rest
  end.

(** Draw rails (lines 201-206). *)
Definition draw_rails (rails_dict : list (Z * string)) : M unit :=
  match Dict.getitem 0%Z rails_dict with
  | None => raise (IntKeyError 0)
  | Some head =>
      draw (Subheader head) ;;;
      match Dict.getitem 1%Z rails_dict with
      | None => raise (IntKeyError 1)
      | Some caption =>
          draw (Caption caption) ;;;
          draw_items rails_dict
      end
  end.

(** The session entries are created when missing (lines 209-217). *)
Definition init_entries (E : Env) : M unit :=
  modify (fun w =>
    match session_memory w with
    | None => set_session_memory (Some Memory.new) w
    | Some _ => w
    end) ;;;
  modify (fun w =>
    match session_messages w with
    | None => set_session_messages
                (Some [AIMessage (lang_dict E "assistant_welcome")]) w
    | Some _ => w
    end).

Definition message_type (m : Message) : string :=
  match m with HumanMessage _ => "human" | AIMessage _ => "ai" end.

(** All messages are drawn again (lines 220-221). *)
Definition redraw : M unit :=
  fun w =>
    match session_messages w with
    | None => (w, inl (AttributeError "messages"))
    | Some ms =>
        (set_chat (chat w ++ map (fun m => (message_type m, content_of m)) ms) w,
         inr tt)
    end.

(** The branch of an authenticated user (lines 141-293). The cached
    session and vector store are those of the user. [rails_query] is the
    pandas query of [rails]; the script is modelled for a [rails.csv] whose
    key column pandas reads as integers (int64 values are among those of
    [Z]) and whose value column as text, which is what the script does
    with the dict: it indexes it with 0 and 1, compares its keys with 1
    and draws its values. *)
Definition authenticated (E : Env)
    (rails_query : string -> Raised + list (Z * string)) (i : Inputs) : M unit :=
  rails_dict <- lift (Bundles.rails rails_query (username i)) ;;
  let vectorstore := VectorStore.load_vectorstore (username i) in
  draw (Title (lang_dict E "title")) ;;;
  (if upload_submitted i
   then on_store (App.vectorize_text E vectorstore (uploaded_file i))
   else ret tt) ;;;
  drop_form E i ;;;
  draw_rails rails_dict ;;;
  init_entries E ;;;
  redraw ;;;
  match question i with
  | None => ret tt
  | Some q =>
      if String.eqb q "" then ret tt
      else on_session (App.turn E vectorstore q)
  end.

(** [st.session_state.clear()] (lines 299 and 305). *)
Definition clear_session (w : World) : World :=
  set_session_memory None (set_session_messages None w).

(** The whole script after the login widget (lines 141-306). *)
Definition script (E : Env)
    (rails_query : string -> Raised + list (Z * string)) (i : Inputs)
    : M unit :=
  match authentication_status i with
  | Some true => authenticated E rails_query i
  | Some false =>
      draw (ErrorBox "Username/password is incorrect") ;;;
      modify clear_session
  | None =>
      draw (WarningBox "Please enter your username and password") ;;;
      modify clear_session
  end.

(** A computation keeps a relation between the keyspace before and after
    it, whether or not it raises. *)
Definition keeps {A : Type}
    (R : gmap string (list Row) -> gmap string (list Row) -> Prop)
    (m : M A) : Prop :=
  forall w, R (db w) (db (fst (m w))).

(** Successive runs of the script; a run that raised leaves the state it
    reached. *)
Definition runs (E : Env)
    (rails_query : string -> Raised + list (Z * string))
    (inputs : list Inputs) (w : World) : World :=
  fold_left (fun w i => fst (script E rails_query i w)) inputs w.

End Script.

(** ** A conversation: successive turns on one session *)

Module Conversation.

(** The questions of a session asked one after the other; a turn that
    raised leaves the state it reached and the next question is asked all
    the same. *)
Definition ask (E : Env) (vs : VectorStore.Cassandra) (questions : list string)
    (s : App.State) : App.State :=
  fold_left (fun s q => fst (App.turn E vs q s)) questions s.

(** The response that the turn for a question gets from the chain
    (line 282) in a given state, or nothing when the chain raises. *)
Definition response (E : Env) (vs : VectorStore.Cassandra) (q : string)
    (s : App.State) : option string :=
  match snd (App.chain_invoke E vs (App.mkHandler "") q
               (Memory.load_memory_variables (App.memory s)) (App.asked q s)) with
  | inl _ => None
  | inr a => Some a
  end.

(** What became of each question of a session: the response of its turn,
    taken in the state the earlier turns left. *)
Fixpoint outcomes (E : Env) (vs : VectorStore.Cassandra)
    (questions : list string) (s : App.State) : list (string * option string) :=
  match questions with
  | [] => []
  | q :: rest =>
      (q, response E vs q s) :: outcomes E vs rest (fst (App.turn E vs q s))
  end.

(** The transcript and the memory turns that a list of outcomes stands
    for. *)
Definition transcript_of (outcomes : list (string * option string))
    : list Message :=
  concat (map (fun o => HumanMessage (fst o)
                        :: match snd o with
                           | Some a => [AIMessage a]
                           | None => []
                           end) outcomes).

Definition recorded (outcomes : list (string * option string))
    : list Memory.MemoryTurn :=
  omap (fun o => match snd o with
                 | Some a => Some (Memory.mkTurn (fst o) a)
                 | None => None
                 end) outcomes.

End Conversation.

(** ** Sample environments, used to run the model on concrete inputs *)

Definition sample_env : Env :=
  mkEnv (fun s => inr [inject_Z (Z.of_nat (String.length s))])
        (fun _ _ => 0%Q)
        (fun _ => (["Hel"; "lo"], None))
        page_content
        content_of
        (fun bytes => inr bytes)
        (fun _ => inr [])
        (fun key => key).

(** The same, with a model call that fails after one streamed token. *)
Definition failing_env : Env :=
  mkEnv (embed sample_env) (similarity sample_env)
        (fun _ => (["Hel"], Some GenerationError))
        page_content content_of (decode sample_env) (pdf_load sample_env)
        (lang_dict sample_env).

(** The same, with reprs that write line feeds with a backslash, as the
    repr of a Python string does. *)
Definition escaping_env : Env :=
  mkEnv (embed sample_env) (similarity sample_env) (llm_stream sample_env)
        (fun d => "Document(page_content='"
                  +:+ Py.escape_line_feeds (page_content d) +:+ "')")
        (fun m => "Message(content='"
                  +:+ Py.escape_line_feeds (content_of m) +:+ "')")
        (decode sample_env) (pdf_load sample_env) (lang_dict sample_env).

Definition sample_state : App.State :=
  App.init_session sample_env ∅.

(** Two texts of 3400 characters: one without whitespace, one with a single
    space after its first 300 characters. *)
Definition plain_text : string :=
  string_of_list_ascii (repeat "a"%char 3400).

Definition spaced_text : string :=
  string_of_list_ascii (repeat "a"%char 300 ++ [" "%char] ++ repeat "a"%char 3099).

(** The rails of two users, as the query returns them: a key may be
    repeated, a user may have no row, and a name with a line feed makes the
    query raise. Then the inputs of a run in which one of the users asks a
    question. *)
Definition sample_rails (username : string)
    : Script.Raised + list (Z * string) :=
  if negb (Py.no_line_feed username) then inl (Script.Exception ValueError)
  else if String.eqb username "alice"
  then inr [(0%Z, "Getting started"); (1%Z, "Try these"); (2%Z, "Upload a file");
            (2%Z, "Ask a question")]
  else if String.eqb username "bob" then inr [(0%Z, "Welcome")]
  else inr [].

Definition sample_localization (locale : string)
    : Script.Raised + list (string * string) :=
  if String.eqb locale "en_US"
  then inr [("title", "Chat"); ("load_context", "Upload"); ("title", "Assistant")]
  else inr [].

Definition sample_inputs : Script.Inputs :=
  Script.mkInputs (Some true) "alice" false None false (Some "hi").

Definition sample_world : Script.World :=
  Script.mkWorld ∅ None None [] [] [] [] [].

(** * Properties *)

(** ** Vector store *)

Section VectorStoreFacts.

Import VectorStore.

Implicit Types (db : gmap string (list Row)) (u : string).

Lemma qualified_load u :
  qualified (load_vectorstore u) = "vector_preview.vector_context_" +:+ u.
Proof. reflexivity. Qed.

Lemma qualified_inj u1 u2 :
  qualified (load_vectorstore u1) = qualified (load_vectorstore u2) -> u1 = u2.
Proof. rewrite !qualified_load. cbn. intros H. by simplify_eq. Qed.

Lemma rows_of_add_ne E u1 u2 docs db db' :
  u1 ≠ u2 ->
  add_documents E (load_vectorstore u2) docs db = inr db' ->
  rows_of db' (load_vectorstore u1) = rows_of db (load_vectorstore u1).
Proof.
  intros Hne Hadd. unfold add_documents in Hadd.
  destruct (embed_documents E docs) as [e|rows]; [done|].
  injection Hadd as <-. unfold rows_of.
  rewrite lookup_insert_ne; [done|].
  intros Heq. apply Hne. symmetry. by apply qualified_inj.
Qed.

Lemma rows_of_clear_ne u1 u2 db :
  u1 ≠ u2 ->
  rows_of (clear (load_vectorstore u2) db) (load_vectorstore u1)
  = rows_of db (load_vectorstore u1).
Proof.
  intros Hne. unfold rows_of, clear.
  rewrite lookup_insert_ne; [done|].
  intros Heq. apply Hne. symmetry. by apply qualified_inj.
Qed.

Lemma rows_of_drop_ne u1 u2 db :
  u1 ≠ u2 ->
  rows_of (drop_vector_data u2 db) (load_vectorstore u1)
  = rows_of db (load_vectorstore u1).
Proof.
  intros Hne. unfold rows_of, drop_vector_data.
  rewrite <- qualified_load. rewrite lookup_delete_ne; [done|].
  intros Heq. apply Hne. symmetry. by apply qualified_inj.
Qed.

Lemma rows_of_step_ne E u ev db :
  event_user ev ≠ u ->
  rows_of (step E db ev) (load_vectorstore u) = rows_of db (load_vectorstore u).
Proof.
  intros Hne. destruct ev as [u2 docs|u2|u2]; cbn in *.
  - destruct (add_documents E (load_vectorstore u2) docs db) as [e|db'] eqn:Hadd;
      [done|]. eapply rows_of_add_ne; [|exact Hadd]. congruence.
  - apply rows_of_clear_ne. congruence.
  - apply rows_of_drop_ne. congruence.
Qed.

Lemma rows_of_run_ne E u trace : forall db,
  Forall (fun ev => event_user ev ≠ u) trace ->
  rows_of (run E trace db) (load_vectorstore u) = rows_of db (load_vectorstore u).
Proof.
  induction trace as [|ev trace IH]; intros db Hall; [done|].
  inversion Hall as [|? ? Hev Hrest]; subst. cbn.
  unfold run in IH. rewrite IH; [|done]. by apply rows_of_step_ne.
Qed.

Lemma search_rows E vs1 vs2 q n db1 db2 :
  rows_of db1 vs1 = rows_of db2 vs2 ->
  similarity_search E vs1 q n db1 = similarity_search E vs2 q n db2.
Proof. intros H. unfold similarity_search. by rewrite H. Qed.

Lemma rows_of_clear vs db : rows_of (clear vs db) vs = [].
Proof. unfold rows_of, clear. by rewrite lookup_insert_eq. Qed.

Lemma rows_of_drop u db :
  rows_of (drop_vector_data u db) (load_vectorstore u) = [].
Proof.
  unfold rows_of, drop_vector_data. rewrite qualified_load.
  by rewrite lookup_delete_eq.
Qed.

Lemma rows_of_empty vs : rows_of ∅ vs = [].
Proof. unfold rows_of. by rewrite lookup_empty. Qed.

Lemma elem_of_insert_by score r x l :
  x ∈ insert_by score r l -> x = r ∨ x ∈ l.
Proof.
  induction l as [|y l IH]; cbn.
  - rewrite list_elem_of_singleton. tauto.
  - destruct (_ && _).
    + rewrite elem_of_cons. tauto.
    + rewrite !elem_of_cons. intros [->|H]; [tauto|].
      destruct (IH H); tauto.
Qed.

Lemma elem_of_rank score x l : x ∈ rank score l -> x ∈ l.
Proof.
  induction l as [|y l IH]; cbn; [done|].
  intros H. apply elem_of_insert_by in H as [->|H].
  - apply elem_of_cons; tauto.
  - apply elem_of_cons; right. by apply IH.
Qed.

Lemma search_elem E vs q n db ds d :
  similarity_search E vs q n db = inr ds ->
  d ∈ ds -> exists r, r ∈ rows_of db vs ∧ d = doc_of_row r.
Proof.
  unfold similarity_search. destruct (embed E q) as [e|qv]; [done|].
  intros [= <-] Hin. apply list_elem_of_fmap in Hin as (r & -> & Hr).
  exists r. split; [|done].
  eapply elem_of_rank. apply elem_of_take in Hr as (i & Hi & _).
  by eapply list_elem_of_lookup_2.
Qed.

Lemma embed_documents_elem E docs rows r :
  embed_documents E docs = inr rows -> r ∈ rows -> doc_of_row r ∈ docs.
Proof.
  revert rows. induction docs as [|d docs IH]; intros rows; cbn.
  - intros [= <-] H. by apply elem_of_nil in H.
  - destruct (embed E (page_content d)) as [e|v]; [done|].
    destruct (embed_documents E docs) as [e|rows']; [done|].
    intros [= <-] H. apply elem_of_cons in H as [->|H].
    + destruct d. cbn. apply elem_of_cons; tauto.
    + apply elem_of_cons; right. by eapply IH.
Qed.

(** Whatever a user's table holds after a trace was in it before or was
    written by an upload of that same user. *)
Lemma rows_of_run_elem E u trace : forall db r,
  r ∈ rows_of (run E trace db) (load_vectorstore u) ->
  r ∈ rows_of db (load_vectorstore u)
  ∨ exists docs, Upsert u docs ∈ trace ∧ doc_of_row r ∈ docs.
Proof.
  induction trace as [|ev trace IH]; intros db r; cbn; [tauto|].
  intros H. unfold run in IH. apply IH in H as [H|(docs & Hin & Hd)].
  2:{ right. exists docs. split; [|done]. apply elem_of_cons; tauto. }
  destruct (decide (event_user ev = u)) as [Heq|Hne].
  2:{ left. by rewrite rows_of_step_ne in H. }
  destruct ev as [u2 docs|u2|u2]; cbn in Heq; subst u2; cbn in H.
  - unfold add_documents in H.
    destruct (embed_documents E docs) as [e|rows] eqn:Hemb; [tauto|].
    unfold rows_of at 1 in H. rewrite lookup_insert_eq in H. cbn in H.
    apply elem_of_app in H as [H|H]; [tauto|].
    right. exists docs. split; [apply elem_of_cons; tauto|].
    by eapply embed_documents_elem.
  - rewrite rows_of_clear in H. by apply elem_of_nil in H.
  - rewrite rows_of_drop in H. by apply elem_of_nil in H.
Qed.

End VectorStoreFacts.

(** C1. Per-tenant isolation. For two different users [a] and [b], a
    similarity search on [a]'s store gives the same answer whatever [b]
    uploads, clears or drops in between; and starting from an empty
    keyspace, every document a search on [a]'s store returns was uploaded
    through [a]'s own store. *)
Theorem tenant_isolation (E : Env) (a b : string) :
  a ≠ b ->
  (forall trace db q n,
     Forall (fun ev => VectorStore.event_user ev = b) trace ->
     VectorStore.similarity_search E (VectorStore.load_vectorstore a) q n
       (VectorStore.run E trace db)
     = VectorStore.similarity_search E (VectorStore.load_vectorstore a) q n db)
  ∧ (forall trace q n ds d,
       VectorStore.similarity_search E (VectorStore.load_vectorstore a) q n
         (VectorStore.run E trace ∅) = inr ds ->
       d ∈ ds ->
       exists docs, VectorStore.Upsert a docs ∈ trace ∧ d ∈ docs).
Proof.
  intros Hne. split.
  - intros trace db q n Hall. apply search_rows. apply rows_of_run_ne.
    eapply Forall_impl; [exact Hall|]. cbn. intros ev ->. congruence.
  - intros trace q n ds d Hs Hd.
    destruct (search_elem _ _ _ _ _ _ _ Hs Hd) as (r & Hr & ->).
    apply rows_of_run_elem in Hr as [Hr|Hr]; [|done].
    rewrite rows_of_empty in Hr. by apply elem_of_nil in Hr.
Qed.

Lemma tenant_isolation_witness :
  "alice" ≠ "bob"
  ∧ VectorStore.similarity_search sample_env (VectorStore.load_vectorstore "alice")
      "tea" 4
      (VectorStore.run sample_env
         [VectorStore.Upsert "bob" [mkDocument "coffee" []]; VectorStore.Clear "bob"]
         (VectorStore.run sample_env
            [VectorStore.Upsert "alice" [mkDocument "green tea" []]] ∅))
    = VectorStore.similarity_search sample_env (VectorStore.load_vectorstore "alice")
        "tea" 4
        (VectorStore.run sample_env
           [VectorStore.Upsert "alice" [mkDocument "green tea" []]] ∅).
Proof.
  assert (Hne : "alice" ≠ "bob") by discriminate.
  split; [exact Hne|].
  apply (proj1 (tenant_isolation sample_env "alice" "bob" Hne)).
  repeat constructor.
Defined.

(** C6. Clear, then search. After [clear] on a user's store the user's table
    holds no row, and a similarity search with [k = 4] on that store returns
    the empty list (the query embedding permitting); the same holds after
    [drop_vector_data], and after the drop form was submitted by the user it
    is shown to. Nothing brings the deleted rows back: the table then only
    holds what is uploaded afterwards. *)
Theorem clear_then_search_empty (E : Env) (u q : string)
    (db : gmap string (list Row)) :
  let vs := VectorStore.load_vectorstore u in
  let empty_result := match embed E q with
                      | inl e => inl e
                      | inr _ => inr []
                      end in
  VectorStore.rows_of (VectorStore.clear vs db) vs = []
  ∧ VectorStore.similarity_search E vs q top_k_vectorstore (VectorStore.clear vs db)
    = empty_result
  ∧ VectorStore.similarity_search E vs q top_k_vectorstore
      (VectorStore.drop_vector_data u db)
    = empty_result
  ∧ (forall s,
       VectorStore.similarity_search E (VectorStore.load_vectorstore "michel") q
         top_k_vectorstore (App.db (fst (App.drop_form E "michel" true s)))
       = empty_result)
  ∧ (forall docs db',
       VectorStore.add_documents E vs docs (VectorStore.clear vs db) = inr db' ->
       forall r, r ∈ VectorStore.rows_of db' vs -> doc_of_row r ∈ docs).
Proof.
  cbn zeta. split; [apply rows_of_clear|].
  unfold VectorStore.similarity_search.
  rewrite rows_of_clear, rows_of_drop. cbn.
  repeat split.
  - intros s. by rewrite rows_of_clear.
  - intros docs db'. unfold VectorStore.add_documents.
    destruct (VectorStore.embed_documents E docs) as [e|rows] eqn:Hemb; [done|].
    intros [= <-] r. unfold VectorStore.rows_of at 1.
    rewrite lookup_insert_eq. cbn. rewrite rows_of_clear. cbn.
    by eapply embed_documents_elem.
Qed.

(** ** Conversation memory *)

Section MemoryFacts.

Import Memory.

Lemma k_append t m : k (append t m) = k m.
Proof. reflexivity. Qed.

Lemma k_appends ts : forall m, k (appends ts m) = k m.
Proof.
  induction ts as [|t ts IH]; intros m; [done|].
  cbn. unfold appends in IH. by rewrite IH.
Qed.

(** One append keeps the last [k] of the old turns followed by the new
    one. *)
Lemma buffer_append t m :
  1 <= k m -> length (buffer m) <= k m ->
  buffer (append t m)
  = drop (length (buffer m ++ [t]) - k m) (buffer m ++ [t]).
Proof.
  intros Hk Hlen. unfold append. cbn. rewrite length_app. cbn.
  destruct (Nat.eqb_spec (length (buffer m)) (k m)) as [Heq|Hne].
  - replace (length (buffer m) + 1 - k m) with 1 by lia.
    rewrite drop_app_le; [done|]. lia.
  - replace (length (buffer m) + 1 - k m) with 0 by lia. done.
Qed.

Lemma length_buffer_append t m :
  1 <= k m -> length (buffer m) <= k m -> length (buffer (append t m)) <= k m.
Proof.
  intros Hk Hlen. rewrite buffer_append by done.
  rewrite length_drop, length_app. cbn. lia.
Qed.

Lemma buffer_appends ts : forall m,
  1 <= k m -> length (buffer m) <= k m ->
  buffer (appends ts m)
  = drop (length (buffer m ++ ts) - k m) (buffer m ++ ts).
Proof.
  induction ts as [|t ts IH]; intros m Hk Hlen.
  - cbn. rewrite app_nil_r. replace (length (buffer m) - k m) with 0 by lia. done.
  - cbn. unfold appends in IH. rewrite IH.
    2:{ by rewrite k_append. }
    2:{ rewrite k_append. by apply length_buffer_append. }
    rewrite k_append, buffer_append by done.
    set (X := buffer m ++ [t]).
    replace (buffer m ++ t :: ts) with (X ++ ts)
      by (unfold X; by rewrite <- app_assoc).
    assert (Hd : length X - k m <= length X) by lia.
    rewrite <- (drop_app_le X ts _ Hd).
    rewrite drop_drop. f_equal.
    rewrite length_drop, !length_app. lia.
Qed.

End MemoryFacts.

(** C2. Sliding window of three turns. The memory is built with
    [k = top_k_memory = 3] and no operation changes [k]; whatever turns are
    appended, the snapshot never holds more than three of them and is
    exactly the last three in order, older ones having been evicted oldest
    first; after four turns it holds the second, third and fourth. *)
Theorem memory_window (ts : list Memory.MemoryTurn) :
  Memory.k Memory.new = 3
  ∧ Memory.k (Memory.appends ts Memory.new) = 3
  ∧ length (Memory.snapshot (Memory.appends ts Memory.new)) <= 3
  ∧ Memory.snapshot (Memory.appends ts Memory.new) = drop (length ts - 3) ts
  ∧ (forall t1 t2 t3 t4,
       Memory.snapshot (Memory.appends [t1; t2; t3; t4] Memory.new) = [t2; t3; t4]).
Proof.
  assert (Hbuf : Memory.buffer (Memory.appends ts Memory.new)
                 = drop (length ts - 3) ts).
  { rewrite buffer_appends; unfold Memory.new, top_k_memory; cbn; [done|lia|lia]. }
  split; [done|]. split; [by rewrite k_appends|].
  unfold Memory.snapshot. rewrite Hbuf. split; [|split; [done|done]].
  rewrite length_drop. lia.
Qed.

(** ** Strings and the prompt template *)

Section PromptFacts.

Import App.

Lemma append_cons (c : ascii) (s t : string) :
  String c s +:+ t = String c (s +:+ t).
Proof. reflexivity. Qed.

Lemma append_nil_l (s : string) : "" +:+ s = s.
Proof. reflexivity. Qed.

Lemma append_nil_r (s : string) : s +:+ "" = s.
Proof.
  induction s as [|c s IH]; [done|]. by rewrite append_cons, IH.
Qed.

Lemma append_assoc (s1 s2 s3 : string) : (s1 +:+ s2) +:+ s3 = s1 +:+ s2 +:+ s3.
Proof.
  induction s1 as [|c s1 IH]; [done|]. by rewrite !append_cons, IH.
Qed.

Lemma append_inv_head (s t1 t2 : string) : s +:+ t1 = s +:+ t2 -> t1 = t2.
Proof.
  induction s as [|c s IH]; [done|]. rewrite !append_cons.
  intros [= H]. by apply IH.
Qed.

Lemma length_append (s t : string) :
  String.length (s +:+ t) = String.length s + String.length t.
Proof.
  induction s as [|c s IH]; [done|]. rewrite append_cons. cbn. by rewrite IH.
Qed.

Lemma append_inv_tail (s1 s2 t : string) : s1 +:+ t = s2 +:+ t -> s1 = s2.
Proof.
  revert s2. induction s1 as [|c s1 IH]; intros [|c2 s2]; [done|..].
  - intros H. apply (f_equal String.length) in H.
    rewrite append_nil_l, append_cons in H. cbn in H.
    rewrite length_append in H. lia.
  - intros H. apply (f_equal String.length) in H.
    rewrite append_nil_l, append_cons in H. cbn in H.
    rewrite length_append in H. lia.
  - rewrite !append_cons. intros [= -> H]. f_equal. by apply IH.
Qed.

Lemma concat_empty_cons (x : string) (l : list string) :
  String.concat "" (x :: l) = x +:+ String.concat "" l.
Proof. destruct l; [symmetry; apply append_nil_r|reflexivity]. Qed.

Lemma template_segments :
  template = instruction +:+ "{context}" +:+ history_heading +:+ "{history}"
             +:+ question_heading +:+ "{question}" +:+ closing.
Proof. vm_compute. reflexivity. Qed.

Lemma parse_template :
  Py.parse template
  = inr [Py.Literal instruction; Py.Field "context";
         Py.Literal history_heading; Py.Field "history";
         Py.Literal question_heading; Py.Field "question";
         Py.Literal closing].
Proof. vm_compute. reflexivity. Qed.

(** Formatting the template with any keyword arguments that bind the three
    names puts the three values, as they are, between the fixed parts. *)
Lemma format_template (kwargs : gmap string string) (c h q : string) :
  kwargs !! "context" = Some c ->
  kwargs !! "history" = Some h ->
  kwargs !! "question" = Some q ->
  Py.format template kwargs = inr (filled c h q).
Proof.
  intros Hc Hh Hq. unfold Py.format. rewrite parse_template.
  cbn [Py.fill]. rewrite Hc, Hh, Hq. unfold filled.
  by rewrite append_nil_r.
Qed.

Lemma chain_kwargs_context E docs history q :
  chain_kwargs E docs history q !! "context"
  = Some (Py.str_list (repr_Document E) docs).
Proof. unfold chain_kwargs. by rewrite lookup_insert_eq. Qed.

Lemma chain_kwargs_history E docs history q :
  chain_kwargs E docs history q !! "history"
  = Some (Py.str_dict
            (map (fun kv => (fst kv, Py.str_list (repr_Message E) (snd kv))) history)).
Proof.
  unfold chain_kwargs. rewrite lookup_insert_ne by done.
  by rewrite lookup_insert_eq.
Qed.

Lemma chain_kwargs_question E docs history q :
  chain_kwargs E docs history q !! "question" = Some q.
Proof.
  unfold chain_kwargs. rewrite !lookup_insert_ne by done.
  by rewrite lookup_insert_eq.
Qed.

Lemma chain_prompt_filled E docs history q :
  chain_prompt E docs history q
  = inr (filled (Py.str_list (repr_Document E) docs)
           (Py.str_dict
              (map (fun kv => (fst kv, Py.str_list (repr_Message E) (snd kv)))
                 history))
           q).
Proof.
  unfold chain_prompt. apply format_template.
  - apply chain_kwargs_context.
  - apply chain_kwargs_history.
  - apply chain_kwargs_question.
Qed.

End PromptFacts.

(** C7. Prompt assembly. The prompt of a turn is the fixed template with its
    three slots filled, nothing else: the instruction text, then in
    [{context}] the Python text of the list of retrieved documents (the
    documents' reprs, comma separated, between brackets), in [{history}] the
    Python text of the dict of memory variables, whose one entry holds the
    messages of the memory snapshot, and in [{question}] the question. *)
Theorem prompt_assembly (E : Env) (docs : list Document)
    (m : Memory.ConversationBufferWindowMemory) (question : string) :
  App.chain_prompt E docs (Memory.load_memory_variables m) question
  = inr (App.instruction
         +:+ ("[" +:+ String.concat ", " (map (repr_Document E) docs) +:+ "]")
         +:+ App.history_heading
         +:+ ("{'history': "
              +:+ ("[" +:+ String.concat ", "
                            (map (repr_Message E)
                               (concat (map Memory.messages_of (Memory.snapshot m))))
                   +:+ "]")
              +:+ "}")
         +:+ App.question_heading
         +:+ question
         +:+ App.closing).
Proof. rewrite chain_prompt_filled. reflexivity. Qed.

(** The claim has the chunk texts concatenated in the context slot; with
    nothing retrieved the slot holds the two brackets of an empty list. *)
Lemma context_slot_not_concatenation :
  App.chain_prompt sample_env [] (Memory.load_memory_variables Memory.new) "hi"
  = inr (App.filled "[]" "{'history': []}" "hi")
  ∧ App.chain_prompt sample_env [] (Memory.load_memory_variables Memory.new) "hi"
    ≠ inr (App.filled (String.concat "" (map page_content []))
             "{'history': []}" "hi").
Proof.
  rewrite chain_prompt_filled. split; [reflexivity|].
  vm_compute. discriminate.
Qed.

(** Formatting puts each value into its slot as it is, in one pass: the
    fixed text around the slots is kept whatever the values contain, braces
    in a value are not read as slots, and the value of one slot can be read
    back when the other two are known. *)
Lemma slot_substitution_verbatim (c h q : string) :
  Py.format App.template
    (<["context" := c]> (<["history" := h]> (<["question" := q]> ∅)))
  = inr (App.instruction +:+ c +:+ App.history_heading +:+ h
         +:+ App.question_heading +:+ q +:+ App.closing)
  ∧ (forall c', App.filled c h q = App.filled c' h q -> c = c')
  ∧ (forall h', App.filled c h q = App.filled c h' q -> h = h')
  ∧ (forall q', App.filled c h q = App.filled c h q' -> q = q').
Proof.
  split; [|split; [|split]].
  - apply format_template.
    + by rewrite lookup_insert_eq.
    + rewrite lookup_insert_ne by done. by rewrite lookup_insert_eq.
    + rewrite !lookup_insert_ne by done. by rewrite lookup_insert_eq.
  - unfold App.filled. intros c' H.
    apply append_inv_head in H. by apply append_inv_tail in H.
  - unfold App.filled. intros h' H.
    do 3 apply append_inv_head in H. by apply append_inv_tail in H.
  - unfold App.filled. intros q' H.
    do 5 apply append_inv_head in H. by apply append_inv_tail in H.
Qed.

(** A question that spells a slot is put into the prompt as it is. *)
Example braces_in_a_value_are_kept :
  Py.format App.template
    (<["context" := "[]"]> (<["history" := "{}"]> (<["question" := "{context}"]> ∅)))
  = inr (App.filled "[]" "{}" "{context}").
Proof. vm_compute. reflexivity. Qed.

(** Raw line feeds in the context or the history are what would move a
    boundary: two texts that the template formats alike. The chain never
    hands such texts to the template. *)
Lemma raw_line_feeds_would_collide :
  let c1 := "A" in
  let h1 := "B" +:+ App.history_heading +:+ "C" in
  let c2 := "A" +:+ App.history_heading +:+ "B" in
  let h2 := "C" in
  (c1, h1) ≠ (c2, h2)
  ∧ Py.format App.template
      (<["context" := c1]> (<["history" := h1]> (<["question" := "Q"]> ∅)))
    = Py.format App.template
        (<["context" := c2]> (<["history" := h2]> (<["question" := "Q"]> ∅))).
Proof.
  cbn zeta. split; [vm_compute; discriminate|].
  vm_compute. reflexivity.
Qed.

Section SlotFacts.

Lemma no_line_feed_append (s t : string) :
  Py.no_line_feed (s +:+ t) = Py.no_line_feed s && Py.no_line_feed t.
Proof.
  unfold Py.no_line_feed. induction s as [|c s IH]; [done|].
  rewrite append_cons. cbn. by rewrite IH, andb_assoc.
Qed.

Lemma no_line_feed_concat (sep : string) (l : list string) :
  Py.no_line_feed sep = true ->
  Forall (fun s => Py.no_line_feed s = true) l ->
  Py.no_line_feed (String.concat sep l) = true.
Proof.
  intros Hsep Hl. induction Hl as [|s l Hs Hl IH]; [done|].
  destruct l as [|s' l]; [exact Hs|].
  change (String.concat sep (s :: s' :: l))
    with (s +:+ sep +:+ String.concat sep (s' :: l)).
  by rewrite !no_line_feed_append, Hs, Hsep, IH.
Qed.

Lemma no_line_feed_str_list {A : Type} (repr : A -> string) (l : list A) :
  (forall x, Py.no_line_feed (repr x) = true) ->
  Py.no_line_feed (Py.str_list repr l) = true.
Proof.
  intros Hrepr. unfold Py.str_list. rewrite !no_line_feed_append.
  rewrite no_line_feed_concat; [done|done|].
  apply Forall_forall. intros s Hs.
  apply list_elem_of_fmap in Hs as (x & -> & _). apply Hrepr.
Qed.

Lemma no_line_feed_history E (m : Memory.ConversationBufferWindowMemory) :
  (forall x, Py.no_line_feed (repr_Message E x) = true) ->
  Py.no_line_feed
    (Py.str_dict
       (map (fun kv => (fst kv, Py.str_list (repr_Message E) (snd kv)))
          (Memory.load_memory_variables m))) = true.
Proof.
  intros Hrepr. unfold Py.str_dict, Memory.load_memory_variables. cbn [map fst snd].
  rewrite !no_line_feed_append. cbn [String.concat].
  rewrite !no_line_feed_append, no_line_feed_str_list by done. done.
Qed.

Lemma no_line_feed_escape (s : string) :
  Py.no_line_feed (Py.escape_line_feeds s) = true.
Proof.
  unfold Py.no_line_feed. induction s as [|c s IH]; [done|].
  cbn [Py.escape_line_feeds]. destruct (Ascii.eqb c "010") eqn:Hc; cbn.
  - exact IH.
  - by rewrite Hc, IH.
Qed.

(** A text without line feeds ends where the line feed that follows it
    stands. *)
Lemma line_feed_delimits (c c' rest rest' : string) :
  Py.no_line_feed c = true -> Py.no_line_feed c' = true ->
  c +:+ String "010" rest = c' +:+ String "010" rest' ->
  c = c' ∧ rest = rest'.
Proof.
  unfold Py.no_line_feed. revert c'.
  induction c as [|a c IH]; intros [|a' c'] Hc Hc'.
  - intros [= ->]. done.
  - rewrite append_nil_l, append_cons. intros [= <- _].
    cbn in Hc'. discriminate.
  - rewrite append_nil_l, append_cons. intros [= -> _].
    cbn in Hc. discriminate.
  - rewrite !append_cons. intros [= -> H].
    cbn in Hc, Hc'. apply andb_true_iff in Hc as [_ Hc].
    apply andb_true_iff in Hc' as [_ Hc'].
    destruct (IH c' Hc Hc' H) as [-> ->]. done.
Qed.

Lemma history_heading_line_feed :
  exists rest, App.history_heading = String "010" rest.
Proof. eexists. vm_compute. reflexivity. Qed.

Lemma question_heading_line_feed :
  exists rest, App.question_heading = String "010" rest.
Proof. eexists. vm_compute. reflexivity. Qed.

(** The three slot texts can be read back from the prompt when the context
    and the history hold no raw line feed. *)
Lemma filled_inj (c h q c' h' q' : string) :
  Py.no_line_feed c = true -> Py.no_line_feed h = true ->
  Py.no_line_feed c' = true -> Py.no_line_feed h' = true ->
  App.filled c h q = App.filled c' h' q' ->
  c = c' ∧ h = h' ∧ q = q'.
Proof.
  intros Hc Hh Hc' Hh'. unfold App.filled. intros H.
  apply append_inv_head in H.
  destruct history_heading_line_feed as [r1 Hr1].
  destruct question_heading_line_feed as [r2 Hr2].
  rewrite Hr1, Hr2, !append_cons in H.
  apply line_feed_delimits in H as [-> H]; [|done|done].
  apply append_inv_head in H.
  apply line_feed_delimits in H as [-> H]; [|done|done].
  apply append_inv_head in H. apply append_inv_tail in H. done.
Qed.

End SlotFacts.

(** C8. Slot boundaries. The context and the history reach the template as
    Python texts of a list and of a dict, made of reprs; reprs hold no raw
    line feed, and each of the two slots is followed by fixed text that
    starts with a line feed, while the question, put in as it is, stands
    between its heading and the closing text that ends the prompt. So,
    whatever the documents, the memory and the question contain, braces and
    line feeds included, the fixed text of the template is kept and the
    three slot texts can be read back from the prompt: no value moves a
    boundary. *)
Theorem slot_boundaries_preserved (E : Env) (docs docs' : list Document)
    (m m' : Memory.ConversationBufferWindowMemory) (q q' : string) :
  (forall d, Py.no_line_feed (repr_Document E d) = true) ->
  (forall x, Py.no_line_feed (repr_Message E x) = true) ->
  let context l := Py.str_list (repr_Document E) l in
  let history x :=
    Py.str_dict (map (fun kv => (fst kv, Py.str_list (repr_Message E) (snd kv)))
                   (Memory.load_memory_variables x)) in
  App.chain_prompt E docs (Memory.load_memory_variables m) q
  = inr (App.instruction +:+ context docs +:+ App.history_heading
         +:+ history m +:+ App.question_heading +:+ q +:+ App.closing)
  ∧ (App.chain_prompt E docs (Memory.load_memory_variables m) q
     = App.chain_prompt E docs' (Memory.load_memory_variables m') q' ->
     context docs = context docs' ∧ history m = history m' ∧ q = q').
Proof.
  intros Hd Hm. cbn zeta. rewrite !chain_prompt_filled.
  split; [reflexivity|]. intros H.
  assert (Hi : forall x y : string, @inr Exn string x = inr y -> x = y)
    by (intros x y Hxy; congruence).
  apply Hi in H. apply filled_inj in H; [done|..].
  - by apply no_line_feed_str_list.
  - by apply no_line_feed_history.
  - by apply no_line_feed_str_list.
  - by apply no_line_feed_history.
Qed.

Lemma slot_boundaries_preserved_witness :
  (forall d, Py.no_line_feed (repr_Document escaping_env d) = true)
  ∧ (forall x, Py.no_line_feed (repr_Message escaping_env x) = true)
  ∧ App.chain_prompt escaping_env
      [mkDocument ("tea" +:+ App.history_heading +:+ "{question}") []]
      (Memory.load_memory_variables Memory.new)
      ("hi" +:+ App.closing +:+ "{context}")
    = inr (App.instruction
           +:+ "[Document(page_content='tea\n\n            Use the previous chat history to answer the question:\n            {question}')]"
           +:+ App.history_heading +:+ "{'history': []}"
           +:+ App.question_heading
           +:+ ("hi" +:+ App.closing +:+ "{context}") +:+ App.closing).
Proof.
  assert (Hd : forall d, Py.no_line_feed (repr_Document escaping_env d) = true).
  { intros d. cbn [repr_Document escaping_env].
    rewrite !no_line_feed_append, no_line_feed_escape. reflexivity. }
  assert (Hm : forall x, Py.no_line_feed (repr_Message escaping_env x) = true).
  { intros x. cbn [repr_Message escaping_env].
    rewrite !no_line_feed_append, no_line_feed_escape. reflexivity. }
  split; [exact Hd|]. split; [exact Hm|].
  exact (proj1 (slot_boundaries_preserved escaping_env
                  [mkDocument ("tea" +:+ App.history_heading +:+ "{question}") []]
                  [] Memory.new Memory.new
                  ("hi" +:+ App.closing +:+ "{context}") "" Hd Hm)).
Defined.

(** ** One turn *)

Section TurnFacts.

Import VectorStore Memory App.

(** What the placeholder is given while [tokens] arrive at the handler
    [h]: after the [i]-th token, the text of [h], then the first [i] tokens,
    then the cursor. *)
Lemma stream_spec (tokens : list string) : forall h s,
  stream tokens h s
  = (set_placeholder
       (placeholder s
        ++ map (fun i => handler_text h +:+ String.concat "" (take i tokens) +:+ cursor)
             (seq 1 (length tokens))) s,
     inr (mkHandler (handler_text h +:+ String.concat "" tokens))).
Proof.
  induction tokens as [|t rest IH]; intros h s.
  - destruct h as [txt], s. cbn. unfold ret, set_placeholder. cbn.
    by rewrite app_nil_r, append_nil_r.
  - cbn [stream]. unfold bind at 1.
    unfold on_llm_new_token, bind, placeholder_markdown, modify, ret. cbn iota beta.
    rewrite IH. cbn [handler_text length seq map].
    f_equal; [|by rewrite concat_empty_cons, append_assoc].
    unfold set_placeholder. cbn. f_equal.
    rewrite <- app_assoc. f_equal. cbn [app]. f_equal.
    + by rewrite append_assoc.
    + rewrite <- (seq_shift (length rest) 1), map_map. apply map_ext. intros i.
      cbn [take firstn]. by rewrite concat_empty_cons, !append_assoc.
Qed.

(** The chain only writes to the response placeholder. *)
Lemma chain_invoke_spec E vs h q history s :
  chain_invoke E vs h q history s
  = match similarity_search E vs q top_k_vectorstore (db s) with
    | inl e => (s, inl e)
    | inr docs =>
        match chain_prompt E docs history q with
        | inl e => (s, inl e)
        | inr prompt =>
            let tokens := fst (llm_stream E prompt) in
            (set_placeholder
               (placeholder s
                ++ map (fun i => handler_text h
                                 +:+ String.concat "" (take i tokens) +:+ cursor)
                     (seq 1 (length tokens))) s,
             match snd (llm_stream E prompt) with
             | Some e => inl e
             | None => inr (response_content tokens)
             end)
        end
    end.
Proof.
  unfold chain_invoke, bind at 1.
  destruct (similarity_search E vs q top_k_vectorstore (db s)) as [e|docs]; [done|].
  unfold bind at 1, lift.
  destruct (chain_prompt E docs history q) as [e|prompt]; [done|].
  unfold bind. rewrite stream_spec.
  destruct (snd (llm_stream E prompt)); reflexivity.
Qed.

Lemma turn_spec E vs q s :
  turn E vs q s
  = match chain_invoke E vs (mkHandler "") q (load_memory_variables (memory s))
            (asked q s) with
    | (s2, inl e) => (s2, inl e)
    | (s2, inr response) =>
        (set_messages (messages s2 ++ [AIMessage response])
           (set_memory (save_context q response (memory s2))
              (set_placeholder (placeholder s2 ++ [response]) s2)),
         inr tt)
    end.
Proof.
  unfold turn, bind, modify, gets, placeholder_markdown, asked. reflexivity.
Qed.

End TurnFacts.

(** C3. A failed turn. When the chain raises, in retrieval or in
    generation, the conversation memory and the vector store are as they
    were before the turn, and the transcript holds one message more than
    before: the question, which is appended before the chain is invoked; no
    assistant message is added. *)
Theorem failed_turn_keeps_memory (E : Env) (vs : VectorStore.Cassandra)
    (q : string) (s : App.State) (e : Exn) :
  snd (App.turn E vs q s) = inl e ->
  App.memory (fst (App.turn E vs q s)) = App.memory s
  ∧ App.messages (fst (App.turn E vs q s)) = App.messages s ++ [HumanMessage q]
  ∧ App.db (fst (App.turn E vs q s)) = App.db s.
Proof.
  rewrite turn_spec, chain_invoke_spec. cbn [App.asked App.db App.set_placeholder
    App.set_chat App.set_messages].
  destruct (VectorStore.similarity_search _ _ _ _ _) as [e1|docs]; [done|].
  destruct (App.chain_prompt _ _ _ _) as [e2|prompt]; [done|].
  cbn zeta. destruct (snd (llm_stream E prompt)) as [e3|]; [done|].
  cbn. discriminate.
Qed.

Lemma failed_turn_keeps_memory_witness :
  snd (App.turn failing_env (VectorStore.load_vectorstore "alice") "hi" sample_state)
  = inl GenerationError
  ∧ App.memory
      (fst (App.turn failing_env (VectorStore.load_vectorstore "alice") "hi"
              sample_state))
    = App.memory sample_state.
Proof.
  assert (H : snd (App.turn failing_env (VectorStore.load_vectorstore "alice") "hi"
                     sample_state) = inl GenerationError)
    by (vm_compute; reflexivity).
  split; [exact H|].
  exact (proj1 (failed_turn_keeps_memory _ _ _ _ _ H)).
Defined.

(** The claim has the transcript unchanged by a failed turn; here the model
    call fails and the transcript has grown by the question. *)
Lemma failed_turn_changes_transcript :
  snd (App.turn failing_env (VectorStore.load_vectorstore "alice") "hi" sample_state)
  = inl GenerationError
  ∧ App.messages
      (fst (App.turn failing_env (VectorStore.load_vectorstore "alice") "hi"
              sample_state))
    = [AIMessage "assistant_welcome"; HumanMessage "hi"]
  ∧ App.messages
      (fst (App.turn failing_env (VectorStore.load_vectorstore "alice") "hi"
              sample_state))
    ≠ App.messages sample_state.
Proof.
  split; [vm_compute; reflexivity|].
  split; [vm_compute; reflexivity|].
  vm_compute. discriminate.
Qed.

(** C9. Streaming. In a turn whose model call streams [tokens] and
    completes, the answer saved to memory and appended to the transcript is
    the concatenation of the tokens; the response placeholder is rewritten
    once per token, its content after the [i]-th token being the
    concatenation of the first [i] tokens followed by the cursor; when the
    call has returned it is rewritten once more with the answer, without the
    cursor. *)
Theorem streamed_answer (E : Env) (vs : VectorStore.Cassandra) (q : string)
    (s : App.State) (docs : list Document) (prompt : string)
    (tokens : list string) :
  VectorStore.similarity_search E vs q top_k_vectorstore (App.db s) = inr docs ->
  App.chain_prompt E docs (Memory.load_memory_variables (App.memory s)) q
  = inr prompt ->
  llm_stream E prompt = (tokens, None) ->
  let s' := fst (App.turn E vs q s) in
  snd (App.turn E vs q s) = inr tt
  ∧ App.messages s'
    = App.messages s ++ [HumanMessage q; AIMessage (String.concat "" tokens)]
  ∧ App.memory s'
    = Memory.save_context q (String.concat "" tokens) (App.memory s)
  ∧ App.placeholder s'
    = map (fun i => String.concat "" (take i tokens) +:+ App.cursor)
        (seq 1 (length tokens))
      ++ [String.concat "" tokens].
Proof.
  intros Hdocs Hprompt Hllm. cbn zeta.
  rewrite turn_spec, chain_invoke_spec.
  cbn [App.asked App.db App.memory App.set_placeholder App.set_chat
       App.set_messages].
  rewrite Hdocs, Hprompt, Hllm. cbn.
  unfold App.response_content. rewrite <- app_assoc. done.
Qed.

Lemma streamed_answer_witness :
  VectorStore.similarity_search sample_env (VectorStore.load_vectorstore "alice")
    "hi" top_k_vectorstore (App.db sample_state) = inr []
  ∧ llm_stream sample_env (App.filled "[]" "{'history': []}" "hi")
    = (["Hel"; "lo"], None)
  ∧ App.placeholder
      (fst (App.turn sample_env (VectorStore.load_vectorstore "alice") "hi"
              sample_state))
    = map (fun i => String.concat "" (take i ["Hel"; "lo"]) +:+ App.cursor)
        (seq 1 2)
      ++ [String.concat "" ["Hel"; "lo"]].
Proof.
  assert (H1 : VectorStore.similarity_search sample_env
                 (VectorStore.load_vectorstore "alice") "hi" top_k_vectorstore
                 (App.db sample_state) = inr [])
    by (vm_compute; reflexivity).
  assert (H2 : App.chain_prompt sample_env []
                 (Memory.load_memory_variables (App.memory sample_state)) "hi"
               = inr (App.filled "[]" "{'history': []}" "hi"))
    by (vm_compute; reflexivity).
  assert (H3 : llm_stream sample_env (App.filled "[]" "{'history': []}" "hi")
               = (["Hel"; "lo"], None))
    by reflexivity.
  split; [exact H1|]. split; [exact H3|].
  exact (proj2 (proj2 (proj2 (streamed_answer _ _ _ _ _ _ _ H1 H2 H3)))).
Defined.

(** The claim has the display hold the first [i] tokens after the [i]-th
    token; after the first token it holds that token and the cursor. *)
Lemma display_holds_cursor :
  App.placeholder
    (fst (App.stream ["Hel"] (App.mkHandler "") sample_state))
  = ["Hel▌"]
  ∧ last (App.placeholder
            (fst (App.stream ["Hel"] (App.mkHandler "") sample_state)))
    ≠ Some (String.concat "" (take 1 ["Hel"])).
Proof.
  split; [vm_compute; reflexivity|]. vm_compute. discriminate.
Qed.

(** C10. Uploads that are not taken. When no file was uploaded, or the name
    of the file ends with neither [txt] nor [pdf], [vectorize_text] returns
    normally and leaves the whole state, the vector store included, as it
    was. *)
Theorem vectorize_text_noop (E : Env) (vs : VectorStore.Cassandra)
    (uploaded_file : option App.UploadedFile) (s : App.State) :
  (uploaded_file = None
   ∨ exists f, uploaded_file = Some f
               ∧ Py.endswith (App.name f) "txt" = false
               ∧ Py.endswith (App.name f) "pdf" = false) ->
  App.vectorize_text E vs uploaded_file s = (s, inr tt).
Proof.
  intros [->|(f & -> & Htxt & Hpdf)]; [reflexivity|].
  unfold App.vectorize_text. rewrite Htxt, Hpdf. reflexivity.
Qed.

Lemma vectorize_text_noop_witness :
  Py.endswith "notes.md" "txt" = false
  ∧ Py.endswith "notes.md" "pdf" = false
  ∧ App.vectorize_text sample_env (VectorStore.load_vectorstore "alice")
      (Some (App.mkUpload "notes.md" "some text")) sample_state
    = (sample_state, inr tt).
Proof.
  split; [reflexivity|]. split; [reflexivity|].
  apply vectorize_text_noop. right.
  exists (App.mkUpload "notes.md" "some text").
  split; [reflexivity|]. split; reflexivity.
Defined.

(** ** Document chunker *)

Section ChunkerFacts.

Import Chunker.

Variables cs ov : nat.
Hypothesis Hov : ov < cs.

Lemma last_cut_bounds b w lo n c :
  last_cut b w lo n = Some c -> lo < c <= lo + n.
Proof.
  induction n as [|n IH]; cbn; [done|].
  destruct (boundary_at b w (lo + S n)).
  - intros [= <-]. lia.
  - intros H. apply IH in H. lia.
Qed.

Lemma cut_point_bounds w : ov < cut_point w cs ov <= cs.
Proof.
  unfold cut_point.
  destruct (last_cut Paragraph w ov (cs - ov)) as [c|] eqn:H1.
  { apply last_cut_bounds in H1. lia. }
  destruct (last_cut Sentence w ov (cs - ov)) as [c|] eqn:H2.
  { apply last_cut_bounds in H2. lia. }
  destruct (last_cut Whitespace w ov (cs - ov)) as [c|] eqn:H3.
  { apply last_cut_bounds in H3. lia. }
  lia.
Qed.

Lemma segments_from_short f t :
  length t <= cs -> segments_from (S f) cs ov t = [t].
Proof. intros H. cbn. by destruct (Nat.leb_spec (length t) cs); [|lia]. Qed.

Lemma segments_from_long f t :
  cs < length t ->
  segments_from (S f) cs ov t
  = take (cut_point (take cs t) cs ov) t
    :: segments_from f cs ov (drop (cut_point (take cs t) cs ov - ov) t).
Proof. intros H. cbn. by destruct (Nat.leb_spec (length t) cs); [lia|]. Qed.

(** The first segment of a text longer than the overlap is a prefix of the
    text that is itself longer than the overlap. *)
Lemma segments_from_head f t :
  ov < length t -> length t <= f ->
  exists c rest,
    segments_from f cs ov t = take c t :: rest ∧ ov < c <= length t ∧ c <= cs.
Proof.
  intros Hlong Hfuel. destruct f as [|f]; [lia|].
  destruct (Nat.le_gt_cases (length t) cs) as [Hs|Hl].
  - exists (length t), []. rewrite segments_from_short by done.
    rewrite firstn_all. split; [done|lia].
  - rewrite segments_from_long by done.
    pose proof (cut_point_bounds (take cs t)).
    eexists _, _. split; [done|lia].
Qed.

Lemma remainder_length (t : list ascii) c :
  cs < length t -> ov < c <= cs ->
  ov < length (drop (c - ov) t) ∧ length (drop (c - ov) t) < length t.
Proof. intros Hl Hc. rewrite length_drop. lia. Qed.

Lemma segments_from_reassemble f : forall t,
  length t <= f -> reassemble_list ov (segments_from f cs ov t) = t.
Proof.
  induction f as [|f IH]; intros t Hfuel.
  - destruct t; [done|cbn in Hfuel; lia].
  - destruct (Nat.le_gt_cases (length t) cs) as [Hs|Hl].
    + rewrite segments_from_short by done. cbn. by rewrite app_nil_r.
    + rewrite segments_from_long by done.
      pose proof (cut_point_bounds (take cs t)) as Hc.
      set (c := cut_point (take cs t) cs ov) in *.
      destruct (remainder_length t c Hl Hc) as [Hr1 Hr2].
      assert (Hf : length (drop (c - ov) t) <= f) by lia.
      specialize (IH _ Hf).
      destruct (segments_from_head f _ Hr1 Hf) as (c' & rest & Heq & Hc' & _).
      rewrite Heq in *. cbn [reassemble_list map concat] in *.
      assert (Hd : drop ov (drop (c - ov) t)
                   = drop ov (take c' (drop (c - ov) t))
                     ++ concat (map (drop ov) rest)).
      { rewrite <- IH at 1. rewrite drop_app_le; [done|].
        rewrite length_take. lia. }
      rewrite <- Hd, drop_drop.
      replace (c - ov + ov) with c by lia. apply take_drop.
Qed.

Lemma segments_from_bounded f : forall t,
  Forall (fun s => length s <= cs) (segments_from f cs ov t).
Proof.
  induction f as [|f IH]; intros t; [constructor|].
  destruct (Nat.le_gt_cases (length t) cs) as [Hs|Hl].
  - rewrite segments_from_short by done. by repeat constructor.
  - rewrite segments_from_long by done. constructor; [|apply IH].
    pose proof (cut_point_bounds (take cs t)). rewrite length_take. lia.
Qed.

Lemma consecutive_share_cons (a b : list ascii) l :
  consecutive_share ov (a :: b :: l)
  = shares ov a b && consecutive_share ov (b :: l).
Proof. reflexivity. Qed.

Lemma segments_from_share f : forall t,
  length t <= f -> consecutive_share ov (segments_from f cs ov t) = true.
Proof.
  induction f as [|f IH]; intros t Hfuel; [done|].
  destruct (Nat.le_gt_cases (length t) cs) as [Hs|Hl].
  - by rewrite segments_from_short.
  - rewrite segments_from_long by done.
    pose proof (cut_point_bounds (take cs t)) as Hc.
    set (c := cut_point (take cs t) cs ov) in *.
    destruct (remainder_length t c Hl Hc) as [Hr1 Hr2].
    assert (Hf : length (drop (c - ov) t) <= f) by lia.
    specialize (IH _ Hf).
    destruct (segments_from_head f _ Hr1 Hf) as (c' & rest & Heq & Hc' & _).
    rewrite Heq in *. rewrite consecutive_share_cons.
    rewrite IH, andb_true_r. unfold shares.
    rewrite !length_take.
    replace (c `min` length t) with c by lia.
    replace (c' `min` length (drop (c - ov) t)) with c' by lia.
    apply andb_true_intro. split.
    + apply andb_true_intro. split; apply Nat.leb_le; lia.
    + apply bool_decide_eq_true. rewrite take_take.
      replace (ov `min` c') with ov by lia.
      rewrite take_drop_commute. by replace (c - ov + ov) with c by lia.
Qed.

(** The first segment brings at most [cs] characters and each later one at
    most [cs - ov] new ones. *)
Lemma reassemble_length (l : list (list ascii)) :
  Forall (fun s => length s <= cs) l ->
  length (reassemble_list ov l) <= cs + (length l - 1) * (cs - ov).
Proof.
  destruct l as [|s rest]; cbn; [lia|]. intros H.
  inversion H as [|? ? Hs Hrest]; subst. rewrite length_app, Nat.sub_0_r.
  assert (length (concat (map (drop ov) rest)) <= length rest * (cs - ov)).
  { clear H Hs. induction Hrest as [|x rest Hx _ IH]; cbn; [lia|].
    rewrite length_app, length_drop. lia. }
  lia.
Qed.

(** A window without whitespace offers no natural boundary, so the cut is
    the hard one. *)
Lemma char_at_no_whitespace (w : list ascii) i :
  no_boundary w = true -> is_whitespace (char_at w i) = false.
Proof.
  unfold no_boundary, char_at. intros H.
  destruct (nth_in_or_default i w "000"%char) as [Hin|Heq]; [|by rewrite Heq].
  rewrite forallb_forall in H. apply H in Hin. by apply negb_true_iff.
Qed.

Lemma is_newline_whitespace c : is_whitespace c = false -> is_newline c = false.
Proof.
  unfold is_whitespace, is_newline. intros H.
  apply orb_false_elim in H as [H _]. apply orb_false_elim in H as [H _].
  by apply orb_false_elim in H as [_ H].
Qed.

Lemma boundary_at_no_whitespace b (w : list ascii) c :
  no_boundary w = true -> boundary_at b w c = false.
Proof.
  intros H. pose proof (char_at_no_whitespace w (c - 1) H) as Hws.
  destruct b; unfold boundary_at.
  - rewrite (is_newline_whitespace _ Hws). apply andb_false_r.
  - rewrite Hws. apply andb_false_r.
  - rewrite Hws. apply andb_false_r.
Qed.

Lemma last_cut_no_whitespace b (w : list ascii) lo n :
  no_boundary w = true -> last_cut b w lo n = None.
Proof.
  intros H. induction n as [|n IH]; [done|].
  cbn [last_cut]. by rewrite boundary_at_no_whitespace.
Qed.

Lemma cut_point_no_whitespace (w : list ascii) :
  no_boundary w = true -> cut_point w cs ov = cs.
Proof. intros H. unfold cut_point. by rewrite !last_cut_no_whitespace. Qed.

Lemma no_boundary_take (t : list ascii) n :
  no_boundary t = true -> no_boundary (take n t) = true.
Proof.
  unfold no_boundary. rewrite !forallb_forall. intros H x Hx.
  apply H. rewrite <- (take_drop n t). apply in_or_app. by left.
Qed.

Lemma no_boundary_drop (t : list ascii) n :
  no_boundary t = true -> no_boundary (drop n t) = true.
Proof.
  unfold no_boundary. rewrite !forallb_forall. intros H x Hx.
  apply H. rewrite <- (take_drop n t). apply in_or_app. by right.
Qed.

End ChunkerFacts.

Section ChunkFacts.

Import Chunker.

Lemma length_string_of_list_ascii (l : list ascii) :
  String.length (string_of_list_ascii l) = length l.
Proof. induction l as [|c l IH]; cbn; [done|]. by rewrite IH. Qed.

Lemma substring_take_drop (l : list ascii) : forall m n,
  substring m n (string_of_list_ascii l) = string_of_list_ascii (take n (drop m l)).
Proof.
  induction l as [|c l IH]; intros m n.
  - destruct m, n; reflexivity.
  - destruct m as [|m].
    + destruct n as [|n]; [reflexivity|]. cbn. by rewrite IH.
    + cbn. apply IH.
Qed.

Lemma texts_number (l : list (list ascii)) : forall i,
  map text (number i l) = map string_of_list_ascii l.
Proof. induction l as [|s l IH]; intros i; cbn; [done|]. by rewrite IH. Qed.

Lemma chars_number (l : list (list ascii)) : forall i,
  map (fun c => list_ascii_of_string (text c)) (number i l) = l.
Proof.
  induction l as [|s l IH]; intros i; cbn; [done|].
  by rewrite IH, list_ascii_of_string_of_list_ascii.
Qed.

Lemma length_number (l : list (list ascii)) : forall i,
  length (number i l) = length l.
Proof. induction l as [|s l IH]; intros i; cbn; [done|]. by rewrite IH. Qed.

Lemma indices_number (l : list (list ascii)) : forall i,
  map sequence_index (number i l) = seq i (length l).
Proof. induction l as [|s l IH]; intros i; cbn; [done|]. by rewrite IH. Qed.

Lemma bounded_number cs (l : list (list ascii)) : forall i,
  Forall (fun s => length s <= cs) l ->
  Forall (fun c => String.length (text c) <= cs) (number i l).
Proof.
  induction l as [|s l IH]; intros i H; cbn; [constructor|].
  inversion H; subst. constructor; [|by apply IH].
  cbn. by rewrite length_string_of_list_ascii.
Qed.

Lemma chunk_valid T cs ov :
  ov < cs ->
  chunk T cs ov = inr (number 0 (segments cs ov (list_ascii_of_string T))).
Proof. intros H. unfold chunk. by destruct (Nat.ltb_spec ov cs); [|lia]. Qed.

Lemma chunk_invalid T cs ov :
  cs <= ov -> chunk T cs ov = inl ConfigurationError.
Proof. intros H. unfold chunk. by destruct (Nat.ltb_spec ov cs); [lia|]. Qed.

End ChunkFacts.

(** C4. Chunking round trip. For every text and every pair with
    [overlap < chunk_size], chunking succeeds; putting the chunk texts
    together again, each chunk after the first without its first [overlap]
    characters, gives the text back unchanged and in order; the characters
    left out are duplicates, the last [overlap] characters of the chunk
    before; no chunk is longer than [chunk_size], and the chunks are
    numbered in order. *)
Theorem chunk_round_trip (T : string) (cs ov : nat) :
  ov < cs ->
  exists chunks,
    Chunker.chunk T cs ov = inr chunks
    ∧ Chunker.reassemble ov (map Chunker.text chunks) = T
    ∧ Chunker.consecutive_share ov
        (map (fun c => list_ascii_of_string (Chunker.text c)) chunks) = true
    ∧ Forall (fun c => String.length (Chunker.text c) <= cs) chunks
    ∧ map Chunker.sequence_index chunks = seq 0 (length chunks).
Proof.
  intros Hov. eexists. split; [by apply chunk_valid|].
  unfold Chunker.reassemble, Chunker.segments.
  rewrite map_map, chars_number, indices_number, length_number.
  rewrite segments_from_reassemble, string_of_list_ascii_of_string by done.
  repeat split.
  - by apply segments_from_share.
  - apply bounded_number. by apply segments_from_bounded.
Qed.

(** C5. A text of 3400 characters, chunked with 1500 and 200. There are at
    least three chunks, none longer than 1500 characters, and consecutive
    chunks share 200 characters; when the text has no whitespace, and so no
    natural boundary to cut at, there are exactly three: the characters
    0-1499, 1300-2799 and 2600-3399. *)
Theorem chunk_3400 (T : string) :
  String.length T = 3400 ->
  exists chunks,
    Chunker.chunk T Chunker.chunk_size Chunker.chunk_overlap = inr chunks
    ∧ 3 <= length chunks
    ∧ Forall (fun c => String.length (Chunker.text c) <= 1500) chunks
    ∧ Chunker.consecutive_share 200
        (map (fun c => list_ascii_of_string (Chunker.text c)) chunks) = true
    ∧ (Chunker.no_boundary (list_ascii_of_string T) = true ->
       map Chunker.text chunks
       = [substring 0 1500 T; substring 1300 1500 T; substring 2600 800 T]).
Proof.
  intros Hlen. unfold Chunker.chunk_size, Chunker.chunk_overlap.
  assert (Hov : 200 < 1500) by lia.
  eexists. split; [by apply chunk_valid|].
  set (t := list_ascii_of_string T).
  assert (Ht : length t = 3400).
  { unfold t. rewrite <- length_string_of_list_ascii.
    by rewrite string_of_list_ascii_of_string. }
  rewrite length_number, chars_number, texts_number.
  unfold Chunker.segments.
  split; [|split; [|split]].
  - pose proof (reassemble_length 1500 200 Hov
                  (Chunker.segments_from (length t) 1500 200 t)
                  (segments_from_bounded 1500 200 Hov _ _)) as Hbound.
    rewrite segments_from_reassemble in Hbound by done.
    rewrite Ht in Hbound at 1. lia.
  - apply bounded_number. by apply segments_from_bounded.
  - by apply segments_from_share.
  - intros Hnb.
    replace (length t) with (S (S (S 3397))) by lia.
    rewrite segments_from_long by lia.
    rewrite cut_point_no_whitespace by (by try apply no_boundary_take).
    replace (1500 - 200) with 1300 by lia.
    rewrite segments_from_long by (rewrite ?length_drop; lia).
    rewrite cut_point_no_whitespace
      by (by try apply no_boundary_take, no_boundary_drop).
    replace (1500 - 200) with 1300 by lia.
    rewrite segments_from_short by (rewrite ?length_drop; lia).
    rewrite drop_drop. replace (1300 + 1300) with 2600 by lia.
    cbn [map].
    assert (HT : T = string_of_list_ascii t)
      by (unfold t; by rewrite string_of_list_ascii_of_string).
    clearbody t. subst T. rewrite !substring_take_drop.
    rewrite drop_0, (take_ge (drop 2600 t)); [done|].
    rewrite length_drop. lia.
Qed.

Lemma chunk_round_trip_witness :
  2 < 8
  ∧ exists chunks,
      Chunker.chunk "abc def. ghi jkl" 8 2 = inr chunks
      ∧ Chunker.reassemble 2 (map Chunker.text chunks) = "abc def. ghi jkl"
      ∧ Chunker.consecutive_share 2
          (map (fun c => list_ascii_of_string (Chunker.text c)) chunks) = true
      ∧ Forall (fun c => String.length (Chunker.text c) <= 8) chunks
      ∧ map Chunker.sequence_index chunks = seq 0 (length chunks).
Proof.
  assert (H : 2 < 8) by lia.
  split; [exact H|]. exact (chunk_round_trip "abc def. ghi jkl" 8 2 H).
Defined.

Lemma chunk_3400_witness :
  String.length plain_text = 3400
  ∧ exists chunks,
      Chunker.chunk plain_text Chunker.chunk_size Chunker.chunk_overlap = inr chunks
      ∧ 3 <= length chunks
      ∧ Forall (fun c => String.length (Chunker.text c) <= 1500) chunks
      ∧ Chunker.consecutive_share 200
          (map (fun c => list_ascii_of_string (Chunker.text c)) chunks) = true
      ∧ (Chunker.no_boundary (list_ascii_of_string plain_text) = true ->
         map Chunker.text chunks
         = [substring 0 1500 plain_text; substring 1300 1500 plain_text;
            substring 2600 800 plain_text]).
Proof.
  assert (H : String.length plain_text = 3400) by (vm_compute; reflexivity).
  split; [exact H|]. exact (chunk_3400 plain_text H).
Defined.

(** The claim has exactly three chunks for every text of 3400 characters; a
    text with a space after its first 300 characters is cut at that space
    and gives four. *)
Lemma chunk_3400_four_chunks :
  String.length spaced_text = 3400
  ∧ match Chunker.chunk spaced_text Chunker.chunk_size Chunker.chunk_overlap with
    | inl _ => False
    | inr chunks =>
        map (fun c => String.length (Chunker.text c)) chunks = [301; 1500; 1500; 699]
        ∧ length chunks <> 3
    end.
Proof.
  split; [vm_compute; reflexivity|].
  vm_compute. split; [reflexivity|discriminate].
Qed.

(** * Further properties of the code *)

(** ** Dicts and the CSV bundles *)

Section DictFacts.

Context {K V : Type} `{EqDecision K}.

Implicit Types (d items : list (K * V)) (k : K) (v : V).

Lemma getitem_setitem k k' v d :
  Dict.getitem k (Dict.setitem k' v d)
  = if decide (k' = k) then Some v else Dict.getitem k d.
Proof.
  induction d as [|[k0 v0] d IH]; cbn.
  - done.
  - destruct (decide (k0 = k')) as [->|Hne]; cbn.
    + destruct (decide (k' = k)); done.
    + destruct (decide (k0 = k)) as [->|Hne2].
      * destruct (decide (k' = k)); [congruence|done].
      * exact IH.
Qed.

Lemma of_items_snoc items k v :
  Dict.of_items (items ++ [(k, v)]) = Dict.setitem k v (Dict.of_items items).
Proof. unfold Dict.of_items. by rewrite fold_left_app. Qed.

(** The value under a key is the one of the last item with that key. *)
Lemma getitem_of_items k items :
  Dict.getitem k (Dict.of_items items)
  = last (map snd (filter (fun kv => fst kv = k) items)).
Proof.
  induction items as [|[k' v] items IH] using rev_ind; [done|].
  rewrite of_items_snoc, getitem_setitem, filter_app, map_app, IH.
  rewrite filter_cons, filter_nil. cbn.
  destruct (decide (k' = k)); cbn.
  - by rewrite last_snoc.
  - by rewrite app_nil_r.
Qed.

Lemma keys_setitem k v d :
  map fst (Dict.setitem k v d)
  = if decide (k ∈ map fst d) then map fst d else map fst d ++ [k].
Proof.
  induction d as [|[k0 v0] d IH]; cbn.
  - destruct (decide (k ∈ [])) as [Hin|]; [by apply elem_of_nil in Hin|done].
  - destruct (decide (k0 = k)) as [->|Hne]; cbn.
    + destruct (decide (k ∈ k :: map fst d)) as [|Hn]; [done|].
      exfalso. apply Hn. apply elem_of_cons; tauto.
    + rewrite IH.
      destruct (decide (k ∈ map fst d)) as [Hin|Hnin];
        destruct (decide (k ∈ k0 :: map fst d)) as [Hin2|Hnin2]; try done.
      * exfalso. apply Hnin2. apply elem_of_cons; tauto.
      * apply elem_of_cons in Hin2 as [->|]; [done|tauto].
Qed.

Lemma NoDup_keys_setitem k v d :
  NoDup (map fst d) -> NoDup (map fst (Dict.setitem k v d)).
Proof.
  intros Hd. rewrite keys_setitem. destruct (decide _) as [|Hn]; [done|].
  apply NoDup_app. split; [done|]. split.
  - intros x Hx Hk. apply list_elem_of_singleton in Hk as ->. done.
  - apply NoDup_singleton.
Qed.

Lemma NoDup_keys_of_items items : NoDup (map fst (Dict.of_items items)).
Proof.
  induction items as [|[k v] items IH] using rev_ind; [constructor|].
  rewrite of_items_snoc. by apply NoDup_keys_setitem.
Qed.

End DictFacts.

Section BundleFacts.

Import Bundles.

Lemma comprehension_from {K V : Type} (df : list (K * V)) :
  forall pre : list (K * V),
  omap (fun i => match map fst (pre ++ df) !! i, map snd (pre ++ df) !! i with
                 | Some k, Some v => Some (k, v)
                 | _, _ => None
                 end)
    (seq (length pre) (length df))
  = df.
Proof.
  induction df as [|[k v] df IH]; intros pre; [done|].
  cbn [length seq]. cbn [omap list_omap].
  rewrite !list_lookup_fmap, lookup_app_r by lia.
  rewrite Nat.sub_diag. cbn. f_equal.
  specialize (IH (pre ++ [(k, v)])).
  rewrite <- app_assoc, length_app in IH. cbn in IH.
  rewrite Nat.add_1_r in IH. exact IH.
Qed.

(** The comprehension over the two columns of a frame is the dict of its
    rows. *)
Lemma comprehension_zip {K V : Type} `{EqDecision K} (df : list (K * V)) :
  comprehension (map fst df) (map snd df) = Dict.of_items df.
Proof.
  unfold comprehension. f_equal. rewrite length_map.
  exact (comprehension_from df []).
Qed.

Lemma getitem_comprehension {K V : Type} `{EqDecision K} (df : list (K * V))
    (k : K) :
  Dict.getitem k (comprehension (map fst df) (map snd df))
  = last (map snd (filter (fun kv => fst kv = k) df)).
Proof. by rewrite comprehension_zip, getitem_of_items. Qed.

Lemma filter_key_absent {K V : Type} `{EqDecision K} (df : list (K * V))
    (k : K) :
  Forall (fun kv => fst kv ≠ k) df -> filter (fun kv => fst kv = k) df = [].
Proof.
  induction 1 as [|kv df Hkv _ IH]; [done|].
  cbn [filter list_filter]. by rewrite decide_False.
Qed.

End BundleFacts.

(** X1. [rails] raises what reading the file or the query raises, and
    otherwise returns a dict in which the value under a key is the value of
    the last row of the queried frame with that key; there is no such key
    when the frame has no such row. This holds for whatever type pandas
    gave the cells of the two columns. *)
Theorem rails_lookup_last {X K V : Type} `{EqDecision K}
    (query : string -> X + list (K * V)) (username : string) :
  match query username with
  | inl e => Bundles.rails query username = inl e
  | inr df =>
      exists d,
        Bundles.rails query username = inr d
        ∧ forall k, Dict.getitem k d
                    = last (map snd (filter (fun kv => fst kv = k) df))
  end.
Proof.
  unfold Bundles.rails. destruct (query username) as [e|df]; [done|].
  eexists. split; [reflexivity|]. intros k. apply getitem_comprehension.
Qed.

Lemma rails_lookup_last_witness :
  exists d,
    Bundles.rails sample_rails "alice" = inr d
    ∧ Dict.getitem 2%Z d = Some "Ask a question"
    ∧ Dict.getitem 3%Z d = None.
Proof.
  pose proof (rails_lookup_last sample_rails "alice") as H.
  change (sample_rails "alice")
    with (@inr Script.Raised _
            [(0%Z, "Getting started"); (1%Z, "Try these");
             (2%Z, "Upload a file"); (2%Z, "Ask a question")]) in H at 1.
  cbv beta iota in H. destruct H as (d & Hd & Hk).
  exists d. split; [exact Hd|]. split; [exact (Hk 2%Z)|exact (Hk 3%Z)].
Defined.

(** X2. The same for [localization]: it raises what reading or the query
    raises, and otherwise the string under a key is the one of the last row
    of the queried frame with that key. *)
Theorem localization_lookup_last {X K V : Type} `{EqDecision K}
    (query : string -> X + list (K * V)) (locale : string) :
  match query locale with
  | inl e => Bundles.localization query locale = inl e
  | inr df =>
      exists d,
        Bundles.localization query locale = inr d
        ∧ forall k, Dict.getitem k d
                    = last (map snd (filter (fun kv => fst kv = k) df))
  end.
Proof.
  unfold Bundles.localization. destruct (query locale) as [e|df]; [done|].
  eexists. split; [reflexivity|]. intros k. apply getitem_comprehension.
Qed.

Lemma localization_lookup_last_witness :
  exists d,
    Bundles.localization sample_localization "en_US" = inr d
    ∧ Dict.getitem "title" d = Some "Assistant".
Proof.
  pose proof (localization_lookup_last sample_localization "en_US") as H.
  change (sample_localization "en_US")
    with (@inr Script.Raised _
            [("title", "Chat"); ("load_context", "Upload"); ("title", "Assistant")])
    in H at 1.
  cbv beta iota in H. destruct H as (d & Hd & Hk).
  exists d. split; [exact Hd|exact (Hk "title")].
Defined.

(** X3. A key occurs once in the dict that [rails] returns, however often
    the queried frame repeats it. *)
Theorem rails_keys_distinct {X K V : Type} `{EqDecision K}
    (query : string -> X + list (K * V)) (username : string)
    (d : list (K * V)) :
  Bundles.rails query username = inr d -> NoDup (map fst d).
Proof.
  unfold Bundles.rails. destruct (query username) as [e|df]; [done|].
  intros [= <-]. rewrite comprehension_zip. apply NoDup_keys_of_items.
Qed.

Lemma rails_keys_distinct_witness :
  Bundles.rails sample_rails "alice"
  = inr [(0%Z, "Getting started"); (1%Z, "Try these"); (2%Z, "Ask a question")]
  ∧ NoDup [0%Z; 1%Z; 2%Z].
Proof.
  assert (H : Bundles.rails sample_rails "alice"
              = inr [(0%Z, "Getting started"); (1%Z, "Try these");
                     (2%Z, "Ask a question")])
    by (vm_compute; reflexivity).
  split; [exact H|]. exact (rails_keys_distinct sample_rails "alice" _ H).
Defined.

(** ** Drawing the rails *)

Section RailsFacts.

Import Script.

Lemma add_widgets_nil w : add_widgets [] w = w.
Proof. destruct w. unfold add_widgets. cbn. by rewrite app_nil_r. Qed.

Lemma add_widgets_add xs ys w :
  add_widgets ys (add_widgets xs w) = add_widgets (xs ++ ys) w.
Proof. unfold add_widgets. cbn. by rewrite app_assoc. Qed.

Lemma draw_items_spec (items : list (Z * string)) : forall w,
  draw_items items w
  = (add_widgets
       (map (fun kv => Markdown (str_int (fst kv - 1) +:+ ". " +:+ snd kv))
          (filter (fun kv => (1 < fst kv)%Z) items)) w,
     inr tt).
Proof.
  induction items as [|[i v] items IH]; intros w.
  - cbn. by rewrite add_widgets_nil.
  - cbn [draw_items]. unfold bind at 1. cbn [filter list_filter fst].
    destruct (Z.ltb_spec 1 i) as [Hlt|Hge].
    + rewrite decide_True by done. unfold draw, modify. rewrite IH.
      by rewrite add_widgets_add.
    + rewrite decide_False by lia. unfold ret. by rewrite IH.
Qed.

Lemma draw_rails_spec (d : list (Z * string)) (w : World) :
  draw_rails d w
  = match Dict.getitem 0%Z d with
    | None => (w, inl (IntKeyError 0))
    | Some head =>
        match Dict.getitem 1%Z d with
        | None => (add_widgets [Subheader head] w, inl (IntKeyError 1))
        | Some caption =>
            (add_widgets
               ([Subheader head; Caption caption]
                ++ map (fun kv => Markdown (str_int (fst kv - 1) +:+ ". " +:+ snd kv))
                     (filter (fun kv => (1 < fst kv)%Z) d)) w,
             inr tt)
        end
    end.
Proof.
  unfold draw_rails.
  destruct (Dict.getitem 0%Z d) as [head|]; [|done].
  unfold bind at 1, draw, modify.
  destruct (Dict.getitem 1%Z d) as [caption|]; [|done].
  unfold bind. rewrite draw_items_spec, !add_widgets_add. done.
Qed.

End RailsFacts.

(** X4. Drawing the rails needs the keys 0 and 1. Without key 0 it raises
    KeyError 0 and draws nothing; with key 0 but without key 1 it raises
    KeyError 1 after the subheader was drawn; with both it draws the
    subheader, the caption and one line per key greater than 1, in the
    order of the dict, numbered with the key minus one. It changes nothing
    but the page. *)
Theorem draw_rails_outcome (d : list (Z * string)) (w : Script.World) :
  Script.draw_rails d w
  = match Dict.getitem 0%Z d, Dict.getitem 1%Z d with
    | None, _ => (w, inl (Script.IntKeyError 0))
    | Some head, None =>
        (Script.add_widgets [Script.Subheader head] w, inl (Script.IntKeyError 1))
    | Some head, Some caption =>
        (Script.add_widgets
           ([Script.Subheader head; Script.Caption caption]
            ++ map (fun kv => Script.Markdown
                                (Script.str_int (fst kv - 1) +:+ ". " +:+ snd kv))
                 (filter (fun kv => (1 < fst kv)%Z) d)) w,
         inr tt)
    end.
Proof.
  rewrite draw_rails_spec.
  destruct (Dict.getitem 0%Z d), (Dict.getitem 1%Z d); reflexivity.
Qed.

(** X5. When the query returns a frame without a row with key 0, for a
    user that [rails.csv] does not know at all for one, [rails] returns a
    dict on which the drawing of the rails raises KeyError 0 and draws
    nothing. *)
Theorem rails_without_head {X : Type}
    (query : string -> X + list (Z * string)) (username : string)
    (df : list (Z * string)) (w : Script.World) :
  query username = inr df ->
  Forall (fun kv => fst kv ≠ 0%Z) df ->
  exists d,
    Bundles.rails query username = inr d
    ∧ Script.draw_rails d w = (w, inl (Script.IntKeyError 0)).
Proof.
  intros Hq Hnone. unfold Bundles.rails. rewrite Hq.
  eexists. split; [reflexivity|].
  rewrite draw_rails_spec, getitem_comprehension.
  by rewrite (filter_key_absent df 0%Z Hnone).
Qed.

Lemma rails_without_head_witness :
  sample_rails "carol" = inr []
  ∧ exists d,
      Bundles.rails sample_rails "carol" = inr d
      ∧ Script.draw_rails d sample_world
        = (sample_world, inl (Script.IntKeyError 0)).
Proof.
  assert (H : sample_rails "carol" = inr []) by (vm_compute; reflexivity).
  split; [exact H|].
  exact (rails_without_head sample_rails "carol" [] sample_world H
           (Forall_nil_2 _)).
Defined.

(** ** The authenticator *)

(** X6. [get_authenticator] returns exactly when the loaded file is a
    mapping with the entries [credentials], [cookie] and [preauthorized],
    and [cookie] is a mapping with [name], [key] and [expiry_days]; the
    authenticator is then built from these five values. *)
Theorem get_authenticator_ok (config : Script.Yaml) (a : Script.Authenticate) :
  Script.get_authenticator config = inr a
  <-> exists items cookie,
        config = Script.YMap items
        ∧ Dict.getitem "credentials" items = Some (Script.credentials a)
        ∧ Dict.getitem "cookie" items = Some (Script.YMap cookie)
        ∧ Dict.getitem "name" cookie = Some (Script.cookie_name a)
        ∧ Dict.getitem "key" cookie = Some (Script.cookie_key a)
        ∧ Dict.getitem "expiry_days" cookie = Some (Script.cookie_expiry_days a)
        ∧ Dict.getitem "preauthorized" items = Some (Script.preauthorized a).
Proof.
  split.
  - unfold Script.get_authenticator, Script.index.
    destruct config as [| | |items]; try discriminate.
    destruct (Dict.getitem "credentials" items) as [c|] eqn:Hc; [|discriminate].
    destruct (Dict.getitem "cookie" items) as [[| | |cookie]|] eqn:Hk;
      try discriminate.
    destruct (Dict.getitem "name" cookie) as [n|] eqn:Hn; [|discriminate].
    destruct (Dict.getitem "key" cookie) as [k|] eqn:Hkey; [|discriminate].
    destruct (Dict.getitem "expiry_days" cookie) as [x|] eqn:Hx; [|discriminate].
    destruct (Dict.getitem "preauthorized" items) as [p|] eqn:Hp; [|discriminate].
    intros [= <-]. exists items, cookie. cbn. done.
  - intros (items & cookie & -> & Hc & Hk & Hn & Hkey & Hx & Hp).
    unfold Script.get_authenticator, Script.index.
    rewrite Hc, Hk, Hn, Hkey, Hx, Hp. by destruct a.
Qed.

(** ** Uploads *)

Section UploadFacts.

Import VectorStore App.

Lemma endswith_txt_not_pdf (s : string) :
  Py.endswith s "txt" = true -> Py.endswith s "pdf" = false.
Proof.
  unfold Py.endswith. cbn [String.length]. intros Htxt.
  apply andb_true_iff in Htxt as [_ Htxt]. apply String.eqb_eq in Htxt.
  rewrite Htxt. apply andb_false_r.
Qed.

(** What an upload may do to the keyspace: nothing, or one
    [add_documents] on the store it was given. *)
Lemma vectorize_text_db E vs f s :
  db (fst (vectorize_text E vs f s)) = db s
  ∨ exists docs d,
      add_documents E vs docs (db s) = inr d
      ∧ db (fst (vectorize_text E vs f s)) = d.
Proof.
  destruct f as [f|]; [|by left]. unfold vectorize_text.
  destruct (Py.endswith (name f) "txt") eqn:Htxt.
  - rewrite (endswith_txt_not_pdf _ Htxt).
    unfold bind, lift, store_add, st_info, modify, ret.
    destruct (decode E (data f)) as [e|decoded]; [by left|].
    destruct (Chunker.create_documents [decoded]) as [e|texts]; [by left|].
    destruct (add_documents E vs texts (db s)) as [e|d] eqn:Hadd; [by left|].
    right. by exists texts, d.
  - unfold bind at 1, ret at 1.
    destruct (Py.endswith (name f) "pdf"); [|by left].
    unfold bind, lift, store_add, st_info, modify, ret. cbn [fst].
    destruct (pdf_load E (data f)) as [e|docs]; [by left|].
    destruct (Chunker.split_documents docs) as [e|pages]; [by left|].
    cbn [db set_tempfiles].
    destruct (add_documents E vs pages (db s)) as [e|d] eqn:Hadd; [by left|].
    right. by exists pages, d.
Qed.

(** An upload does not read or write the session entries. *)
Lemma vectorize_text_session E vs f s :
  messages (fst (vectorize_text E vs f s)) = messages s
  ∧ memory (fst (vectorize_text E vs f s)) = memory s.
Proof.
  destruct f as [f|]; [|done]. unfold vectorize_text.
  destruct (Py.endswith (name f) "txt") eqn:Htxt.
  - rewrite (endswith_txt_not_pdf _ Htxt).
    unfold bind, lift, store_add, st_info, modify, ret.
    destruct (decode E (data f)) as [e|decoded]; [done|].
    destruct (Chunker.create_documents [decoded]) as [e|texts]; [done|].
    destruct (add_documents E vs texts (db s)) as [e|d]; done.
  - unfold bind at 1, ret at 1.
    destruct (Py.endswith (name f) "pdf"); [|done].
    unfold bind, lift, store_add, st_info, modify, ret. cbn [fst].
    destruct (pdf_load E (data f)) as [e|docs]; [done|].
    destruct (Chunker.split_documents docs) as [e|pages]; [done|].
    cbn [db set_tempfiles].
    destruct (add_documents E vs pages (db s)) as [e|d]; done.
Qed.

Lemma rows_of_add_prefix E vs vs' docs d d' :
  add_documents E vs docs d = inr d' ->
  rows_of d vs' `prefix_of` rows_of d' vs'.
Proof.
  unfold add_documents. destruct (embed_documents E docs) as [e|rows]; [done|].
  intros [= <-]. unfold rows_of at 2.
  destruct (decide (qualified vs = qualified vs')) as [Heq|Hne].
  - rewrite Heq, lookup_insert_eq. cbn. unfold rows_of. rewrite Heq.
    by apply prefix_app_r.
  - rewrite lookup_insert_ne by done. done.
Qed.

End UploadFacts.

Ltac nothing_shown :=
  exists []; cbn; rewrite app_nil_r; split; [reflexivity|lia].

(** X7. A file is never taken twice: its name cannot end with both [txt] and
    [pdf], so an upload runs at most one of the two branches and shows at
    most one notice. *)
Theorem upload_taken_once (E : Env) (vs : VectorStore.Cassandra)
    (f : option App.UploadedFile) (s : App.State) :
  (forall name, ~ (Py.endswith name "txt" = true ∧ Py.endswith name "pdf" = true))
  ∧ exists shown,
      App.notices (fst (App.vectorize_text E vs f s)) = App.notices s ++ shown
      ∧ length shown <= 1.
Proof.
  split.
  { intros name [Htxt Hpdf]. apply endswith_txt_not_pdf in Htxt. congruence. }
  destruct f as [f|]; [|nothing_shown].
  unfold App.vectorize_text.
  destruct (Py.endswith (App.name f) "txt") eqn:Htxt.
  - rewrite (endswith_txt_not_pdf _ Htxt).
    unfold App.bind, App.lift, App.store_add, App.st_info, App.modify, App.ret.
    destruct (decode E (App.data f)) as [e|decoded];
      [nothing_shown|].
    destruct (Chunker.create_documents [decoded]) as [e|texts];
      [nothing_shown|].
    destruct (VectorStore.add_documents E vs texts (App.db s)) as [e|d];
      [nothing_shown|].
    eexists [_]. cbn. split; [reflexivity|lia].
  - unfold App.bind at 1, App.ret at 1.
    destruct (Py.endswith (App.name f) "pdf");
      [|nothing_shown].
    unfold App.bind, App.lift, App.store_add, App.st_info, App.modify, App.ret.
    cbn [fst].
    destruct (pdf_load E (App.data f)) as [e|docs];
      [nothing_shown|].
    destruct (Chunker.split_documents docs) as [e|pages];
      [nothing_shown|].
    cbn [App.db App.set_tempfiles].
    destruct (VectorStore.add_documents E vs pages (App.db s)) as [e|d];
      [nothing_shown|].
    eexists [_]. cbn. split; [reflexivity|lia].
Qed.

(** X8. When the upload cannot be read, the bytes of a text file do not
    decode, or the PDF does not load, the call raises that error and the
    vector store and the notices are as before; for a PDF the bytes were
    written to the temporary file first. *)
Theorem upload_read_failure (E : Env) (vs : VectorStore.Cassandra)
    (f : App.UploadedFile) (s : App.State) (e : Exn) :
  (Py.endswith (App.name f) "txt" = true ∧ decode E (App.data f) = inl e)
  ∨ (Py.endswith (App.name f) "pdf" = true ∧ pdf_load E (App.data f) = inl e) ->
  snd (App.vectorize_text E vs (Some f) s) = inl e
  ∧ App.db (fst (App.vectorize_text E vs (Some f) s)) = App.db s
  ∧ App.notices (fst (App.vectorize_text E vs (Some f) s)) = App.notices s
  ∧ (Py.endswith (App.name f) "pdf" = true ->
     App.tempfiles (fst (App.vectorize_text E vs (Some f) s))
     = App.tempfiles s ++ [(App.name f, App.data f)]).
Proof.
  intros [[Htxt Hdec]|[Hpdf Hload]]; unfold App.vectorize_text.
  - rewrite Htxt, (endswith_txt_not_pdf _ Htxt).
    unfold App.bind, App.lift. rewrite Hdec. cbn. done.
  - destruct (Py.endswith (App.name f) "txt") eqn:Htxt.
    { apply endswith_txt_not_pdf in Htxt. congruence. }
    rewrite Hpdf. unfold App.bind, App.lift, App.ret, App.modify.
    rewrite Hload. cbn. done.
Qed.

Lemma upload_read_failure_witness :
  Py.endswith "scan.pdf" "pdf" = true
  ∧ pdf_load (mkEnv (embed sample_env) (similarity sample_env)
                (llm_stream sample_env) page_content content_of
                (decode sample_env) (fun _ => inl PdfReadError)
                (lang_dict sample_env)) "%PDF" = inl PdfReadError
  ∧ App.db
      (fst (App.vectorize_text
              (mkEnv (embed sample_env) (similarity sample_env)
                 (llm_stream sample_env) page_content content_of
                 (decode sample_env) (fun _ => inl PdfReadError)
                 (lang_dict sample_env))
              (VectorStore.load_vectorstore "alice")
              (Some (App.mkUpload "scan.pdf" "%PDF")) sample_state))
    = App.db sample_state.
Proof.
  split; [reflexivity|]. split; [reflexivity|].
  refine (proj1 (proj2 (upload_read_failure _ _ _ _ PdfReadError _))).
  right. split; reflexivity.
Defined.

(** X9. An upload through the store of one user leaves the table of every
    other user as it was, whatever the file and whether or not the call
    raises. *)
Theorem upload_other_users (E : Env) (u u' : string)
    (f : option App.UploadedFile) (s : App.State) :
  u ≠ u' ->
  VectorStore.rows_of
    (App.db (fst (App.vectorize_text E (VectorStore.load_vectorstore u) f s)))
    (VectorStore.load_vectorstore u')
  = VectorStore.rows_of (App.db s) (VectorStore.load_vectorstore u').
Proof.
  intros Hne.
  destruct (vectorize_text_db E (VectorStore.load_vectorstore u) f s)
    as [->|(docs & d & Hadd & ->)]; [done|].
  eapply rows_of_add_ne; [|exact Hadd]. congruence.
Qed.

Lemma upload_other_users_witness :
  "alice" ≠ "bob"
  ∧ VectorStore.rows_of
      (App.db (fst (App.vectorize_text sample_env
                      (VectorStore.load_vectorstore "alice")
                      (Some (App.mkUpload "notes.txt" "green tea")) sample_state)))
      (VectorStore.load_vectorstore "bob")
    = VectorStore.rows_of (App.db sample_state) (VectorStore.load_vectorstore "bob").
Proof.
  assert (H : "alice" ≠ "bob") by discriminate.
  split; [exact H|]. exact (upload_other_users _ _ _ _ _ H).
Defined.

(** X10. [drop_vector_data] can be repeated and can be called for a user
    without a table: the second drop, or the drop of a missing table,
    changes nothing, and no drop touches the table of another user. *)
Theorem drop_vector_data_again (u : string) (db : gmap string (list Row)) :
  VectorStore.drop_vector_data u (VectorStore.drop_vector_data u db)
  = VectorStore.drop_vector_data u db
  ∧ (db !! VectorStore.qualified (VectorStore.load_vectorstore u) = None ->
     VectorStore.drop_vector_data u db = db)
  ∧ (forall u', u ≠ u' ->
       VectorStore.drop_vector_data u db
         !! VectorStore.qualified (VectorStore.load_vectorstore u')
       = db !! VectorStore.qualified (VectorStore.load_vectorstore u')).
Proof.
  unfold VectorStore.drop_vector_data. rewrite <- !qualified_load.
  split; [|split].
  - apply delete_delete_eq.
  - intros Hnone. by apply delete_id.
  - intros u' Hne. rewrite lookup_delete_ne; [done|].
    intros Heq. apply Hne. by apply qualified_inj.
Qed.

(** ** Turns and conversations *)

Section ConversationFacts.

Import VectorStore Memory App.

(** A turn leaves the store, the notices and the temporary files alone; it
    either raises, having recorded the question only, or completes with an
    answer recorded in the transcript and in memory. *)
Lemma turn_cases E vs q s :
  db (fst (turn E vs q s)) = db s
  ∧ notices (fst (turn E vs q s)) = notices s
  ∧ tempfiles (fst (turn E vs q s)) = tempfiles s
  ∧ ((exists e, snd (turn E vs q s) = inl e
                ∧ messages (fst (turn E vs q s)) = messages s ++ [HumanMessage q]
                ∧ memory (fst (turn E vs q s)) = memory s)
     ∨ (exists a, snd (turn E vs q s) = inr tt
                  ∧ messages (fst (turn E vs q s))
                    = messages s ++ [HumanMessage q; AIMessage a]
                  ∧ memory (fst (turn E vs q s)) = save_context q a (memory s))).
Proof.
  rewrite turn_spec, chain_invoke_spec.
  cbn [asked db memory set_placeholder set_chat set_messages].
  destruct (similarity_search E vs q top_k_vectorstore (db s)) as [e|docs].
  { cbn. repeat split. left. by exists e. }
  destruct (chain_prompt E docs (load_memory_variables (memory s)) q)
    as [e|prompt].
  { cbn. repeat split. left. by exists e. }
  cbn zeta. destruct (snd (llm_stream E prompt)) as [e|].
  - cbn. repeat split. left. by exists e.
  - cbn. repeat split. right. eexists. rewrite <- app_assoc. by cbn.
Qed.

Lemma ask_cons E vs q qs s :
  Conversation.ask E vs (q :: qs) s = Conversation.ask E vs qs (fst (turn E vs q s)).
Proof. reflexivity. Qed.

(** The response of the chain decides how the turn ends. *)
Lemma response_cases E vs q s :
  match Conversation.response E vs q s with
  | None =>
      (exists e, snd (turn E vs q s) = inl e)
      ∧ messages (fst (turn E vs q s)) = messages s ++ [HumanMessage q]
      ∧ memory (fst (turn E vs q s)) = memory s
  | Some a =>
      snd (turn E vs q s) = inr tt
      ∧ messages (fst (turn E vs q s)) = messages s ++ [HumanMessage q; AIMessage a]
      ∧ memory (fst (turn E vs q s)) = save_context q a (memory s)
  end.
Proof.
  unfold Conversation.response. rewrite turn_spec, chain_invoke_spec.
  cbn [asked db memory set_placeholder set_chat set_messages].
  destruct (similarity_search E vs q top_k_vectorstore (db s)) as [e|docs].
  { cbn. split; [by exists e|done]. }
  destruct (chain_prompt E docs (load_memory_variables (memory s)) q)
    as [e|prompt].
  { cbn. split; [by exists e|done]. }
  cbn zeta. destruct (snd (llm_stream E prompt)) as [e|]; cbn.
  - split; [by exists e|done].
  - rewrite <- app_assoc. done.
Qed.

Lemma response_none E vs q s :
  Conversation.response E vs q s = None <-> exists e, snd (turn E vs q s) = inl e.
Proof.
  pose proof (response_cases E vs q s) as H.
  destruct (Conversation.response E vs q s) as [a|].
  - destruct H as [H _]. split; [done|]. intros [e He]. congruence.
  - destruct H as [H _]. done.
Qed.

Lemma ask_outcomes E vs qs : forall s,
  map fst (Conversation.outcomes E vs qs s) = qs
  ∧ messages (Conversation.ask E vs qs s)
    = messages s ++ Conversation.transcript_of (Conversation.outcomes E vs qs s)
  ∧ memory (Conversation.ask E vs qs s)
    = appends (Conversation.recorded (Conversation.outcomes E vs qs s)) (memory s)
  ∧ db (Conversation.ask E vs qs s) = db s.
Proof.
  induction qs as [|q qs IH]; intros s.
  - cbn. by rewrite app_nil_r.
  - rewrite ask_cons. cbn [Conversation.outcomes].
    destruct (IH (fst (turn E vs q s))) as (Hq & Hm & Hmem & Hdb).
    destruct (turn_cases E vs q s) as (Hdb1 & _).
    pose proof (response_cases E vs q s) as Hr.
    split; [cbn [map fst]; by rewrite Hq|].
    rewrite Hm, Hmem, Hdb, Hdb1.
    destruct (Conversation.response E vs q s) as [a|];
      destruct Hr as (_ & -> & ->); rewrite <- app_assoc; done.
Qed.

(** The outcome at a position is the response of the turn for the question
    at that position, taken in the state that the questions before it
    left. *)
Lemma outcomes_lookup E vs qs : forall s n q,
  qs !! n = Some q ->
  Conversation.outcomes E vs qs s !! n
  = Some (q, Conversation.response E vs q (Conversation.ask E vs (take n qs) s)).
Proof.
  induction qs as [|q0 qs IH]; intros s [|n] q; try done.
  - cbn. by intros [= ->].
  - cbn [lookup list_lookup Conversation.outcomes take]. intros Hq.
    rewrite ask_cons. by apply IH.
Qed.

End ConversationFacts.

(** X11. A turn never writes to the vector store: whether it completes or
    raises, the keyspace is as before, and so are the notices and the
    temporary files. *)
Theorem turn_keeps_store (E : Env) (vs : VectorStore.Cassandra) (q : string)
    (s : App.State) :
  App.db (fst (App.turn E vs q s)) = App.db s
  ∧ App.notices (fst (App.turn E vs q s)) = App.notices s
  ∧ App.tempfiles (fst (App.turn E vs q s)) = App.tempfiles s.
Proof.
  destruct (turn_cases E vs q s) as (H1 & H2 & H3 & _). done.
Qed.

(** X12. Over any list of questions asked one after the other, the
    transcript and the memory record the same turns in the same order. The
    outcome of a question is the response that the chain gave in its turn,
    in the state the questions before it left, and it is missing exactly
    when that turn raised. Every question is in the transcript, followed by
    its answer when its turn completed, and exactly the completed turns
    were appended to the memory, with the same question and answer. *)
Theorem conversation_consistent (E : Env) (vs : VectorStore.Cassandra)
    (questions : list string) (s : App.State) :
  let outcomes := Conversation.outcomes E vs questions s in
  map fst outcomes = questions
  ∧ (forall n q,
       questions !! n = Some q ->
       outcomes !! n
       = Some (q, Conversation.response E vs q
                    (Conversation.ask E vs (take n questions) s)))
  ∧ (forall q s0,
       Conversation.response E vs q s0 = None
       <-> exists e, snd (App.turn E vs q s0) = inl e)
  ∧ App.messages (Conversation.ask E vs questions s)
    = App.messages s ++ Conversation.transcript_of outcomes
  ∧ App.memory (Conversation.ask E vs questions s)
    = Memory.appends (Conversation.recorded outcomes) (App.memory s)
  ∧ App.db (Conversation.ask E vs questions s) = App.db s.
Proof.
  cbn zeta. destruct (ask_outcomes E vs questions s) as (Hq & Hm & Hmem & Hdb).
  split; [exact Hq|]. split; [apply outcomes_lookup|].
  split; [apply response_none|]. done.
Qed.

(** X13. In a session that starts with the fresh memory, the memory snapshot
    after any list of questions is the last three of the turns that
    completed, each with the response the chain gave in it; questions whose
    turn raised take no place in the window. *)
Theorem conversation_window (E : Env) (vs : VectorStore.Cassandra)
    (questions : list string) (s : App.State) :
  App.memory s = Memory.new ->
  let completed :=
    Conversation.recorded (Conversation.outcomes E vs questions s) in
  Memory.snapshot (App.memory (Conversation.ask E vs questions s))
  = drop (length completed - 3) completed
  ∧ (forall n q,
       questions !! n = Some q ->
       Conversation.outcomes E vs questions s !! n
       = Some (q, Conversation.response E vs q
                    (Conversation.ask E vs (take n questions) s)))
  ∧ (forall q s0,
       Conversation.response E vs q s0 = None
       <-> exists e, snd (App.turn E vs q s0) = inl e).
Proof.
  intros Hnew. cbn zeta.
  destruct (ask_outcomes E vs questions s) as (_ & _ & Hmem & _).
  split; [|split; [apply outcomes_lookup|apply response_none]].
  rewrite Hmem, Hnew. unfold Memory.snapshot.
  rewrite buffer_appends; unfold Memory.new, top_k_memory; cbn; [done|lia|lia].
Qed.

Lemma conversation_window_witness :
  App.memory sample_state = Memory.new
  ∧ Memory.snapshot
      (App.memory
         (Conversation.ask sample_env (VectorStore.load_vectorstore "alice")
            ["one"; "two"; "three"; "four"] sample_state))
    = drop (length
              (Conversation.recorded
                 (Conversation.outcomes sample_env
                    (VectorStore.load_vectorstore "alice")
                    ["one"; "two"; "three"; "four"] sample_state)) - 3)
        (Conversation.recorded
           (Conversation.outcomes sample_env
              (VectorStore.load_vectorstore "alice")
              ["one"; "two"; "three"; "four"] sample_state)).
Proof.
  assert (H : App.memory sample_state = Memory.new) by reflexivity.
  split; [exact H|]. exact (proj1 (conversation_window _ _ _ _ H)).
Defined.

(** X14. When the model call fails after streaming some tokens, the turn
    raises that error and what was streamed stays on the page: the
    placeholder was rewritten once per token and is not rewritten again, so
    its last content is the tokens received followed by the cursor. *)
Theorem failed_generation_keeps_partial_output (E : Env)
    (vs : VectorStore.Cassandra) (q : string) (s : App.State)
    (docs : list Document) (prompt : string) (tokens : list string) (e : Exn) :
  VectorStore.similarity_search E vs q top_k_vectorstore (App.db s) = inr docs ->
  App.chain_prompt E docs (Memory.load_memory_variables (App.memory s)) q
  = inr prompt ->
  llm_stream E prompt = (tokens, Some e) ->
  snd (App.turn E vs q s) = inl e
  ∧ App.placeholder (fst (App.turn E vs q s))
    = map (fun i => String.concat "" (take i tokens) +:+ App.cursor)
        (seq 1 (length tokens)).
Proof.
  intros Hdocs Hprompt Hllm.
  rewrite turn_spec, chain_invoke_spec.
  cbn [App.asked App.db App.memory App.set_placeholder App.set_chat
       App.set_messages].
  rewrite Hdocs, Hprompt, Hllm. cbn. done.
Qed.

Lemma failed_generation_keeps_partial_output_witness :
  llm_stream failing_env (App.filled "[]" "{'history': []}" "hi")
  = (["Hel"], Some GenerationError)
  ∧ App.placeholder
      (fst (App.turn failing_env (VectorStore.load_vectorstore "alice") "hi"
              sample_state))
    = map (fun i => String.concat "" (take i ["Hel"]) +:+ App.cursor) (seq 1 1).
Proof.
  assert (H1 : VectorStore.similarity_search failing_env
                 (VectorStore.load_vectorstore "alice") "hi" top_k_vectorstore
                 (App.db sample_state) = inr [])
    by (vm_compute; reflexivity).
  assert (H2 : App.chain_prompt failing_env []
                 (Memory.load_memory_variables (App.memory sample_state)) "hi"
               = inr (App.filled "[]" "{'history': []}" "hi"))
    by (vm_compute; reflexivity).
  assert (H3 : llm_stream failing_env (App.filled "[]" "{'history': []}" "hi")
               = (["Hel"], Some GenerationError))
    by reflexivity.
  split; [exact H3|].
  exact (proj2 (failed_generation_keeps_partial_output _ _ _ _ _ _ _ _ H1 H2 H3)).
Defined.

(** X15. The callback accumulates: for a handler with any initial text,
    streaming two runs of tokens one after the other is streaming their
    concatenation, and the handler ends with its initial text followed by
    all tokens. *)
Theorem stream_accumulates (t1 t2 : list string) (h : App.StreamHandler)
    (s : App.State) :
  App.stream (t1 ++ t2) h s = App.bind (App.stream t1 h) (App.stream t2) s
  ∧ snd (App.stream (t1 ++ t2) h s)
    = inr (App.mkHandler (App.handler_text h +:+ String.concat "" (t1 ++ t2))).
Proof.
  split; [|by rewrite stream_spec].
  revert h s. induction t1 as [|t t1 IH]; intros h s.
  - reflexivity.
  - cbn [app App.stream]. unfold App.bind.
    destruct (App.on_llm_new_token t h s) as [s1 [e|h1]]; [reflexivity|].
    rewrite IH. reflexivity.
Qed.

(** ** The script *)

Section ScriptFacts.

Import Script.

Variable R : gmap string (list Row) -> gmap string (list Row) -> Prop.
Hypothesis R_refl : forall d, R d d.
Hypothesis R_trans : forall d1 d2 d3, R d1 d2 -> R d2 d3 -> R d1 d3.

Lemma keeps_ret {A} (a : A) : keeps R (ret a).
Proof. intros w. apply R_refl. Qed.

Lemma keeps_raise {A} e : keeps R (@raise A e).
Proof. intros w. apply R_refl. Qed.

Lemma keeps_bind {A B} (m : M A) (f : A -> M B) :
  keeps R m -> (forall a, keeps R (f a)) -> keeps R (bind m f).
Proof.
  intros Hm Hf w. unfold bind. specialize (Hm w).
  destruct (m w) as [w' [e|a]]; [exact Hm|].
  eapply R_trans; [exact Hm|]. apply Hf.
Qed.

Lemma keeps_modify (f : World -> World) :
  (forall w, db (f w) = db w) -> keeps R (modify f).
Proof. intros Hf w. cbn. rewrite Hf. apply R_refl. Qed.

Lemma keeps_lift {A} (r : Raised + A) : keeps R (lift r).
Proof. intros w. apply R_refl. Qed.

Lemma keeps_draw x : keeps R (draw x).
Proof. by apply keeps_modify. Qed.

Lemma keeps_draw_items items : keeps R (draw_items items).
Proof.
  induction items as [|[i v] items IH]; [apply keeps_ret|].
  cbn [draw_items]. apply keeps_bind; [|intros _; exact IH].
  destruct (1 <? i)%Z; [apply keeps_draw|apply keeps_ret].
Qed.

Lemma keeps_draw_rails d : keeps R (draw_rails d).
Proof.
  unfold draw_rails. destruct (Dict.getitem 0%Z d); [|apply keeps_raise].
  apply keeps_bind; [apply keeps_draw|]. intros _.
  destruct (Dict.getitem 1%Z d); [|apply keeps_raise].
  apply keeps_bind; [apply keeps_draw|]. intros _. apply keeps_draw_items.
Qed.

Lemma keeps_init_entries E : keeps R (init_entries E).
Proof.
  unfold init_entries. apply keeps_bind; [|intros _]; apply keeps_modify;
    intros w; [by destruct (session_memory w)|by destruct (session_messages w)].
Qed.

Lemma keeps_redraw : keeps R redraw.
Proof.
  intros w. unfold redraw. destruct (session_messages w); apply R_refl.
Qed.

Lemma keeps_on_store (c : App.M unit) :
  (forall s, R (App.db s) (App.db (fst (c s)))) -> keeps R (on_store c).
Proof. intros Hc w. unfold on_store. cbn. apply (Hc (to_app _ _ w)). Qed.

Lemma keeps_on_session (c : App.M unit) :
  (forall s, R (App.db s) (App.db (fst (c s)))) -> keeps R (on_session c).
Proof.
  intros Hc w. unfold on_session.
  destruct (session_messages w) as [ms|]; [|apply R_refl].
  destruct (session_memory w) as [m|]; [|apply R_refl].
  cbn. apply (Hc (to_app ms m w)).
Qed.

Lemma keeps_drop_form E i :
  (username i = "michel" ->
   forall d, R d (VectorStore.clear (VectorStore.load_vectorstore (username i)) d)) ->
  keeps R (drop_form E i).
Proof.
  intros Hclear. unfold drop_form.
  destruct (String.eqb_spec (username i) "michel") as [Heq|Hne];
    [|apply keeps_ret].
  apply keeps_bind; [apply keeps_draw|]. intros _.
  destruct (drop_submitted i); [|apply keeps_ret].
  apply keeps_bind.
  { intros w. cbn. by apply Hclear. }
  intros _. apply keeps_bind; [by apply keeps_modify|]. intros _.
  intros w. destruct (session_memory w); apply R_refl.
Qed.

(** Whatever the inputs, a run changes the keyspace only by uploads to and,
    for the one user, clears of the store of the logged-in user. *)
Lemma keeps_script E (rails_query : string -> Raised + list (Z * string)) i :
  (forall docs d d',
     VectorStore.add_documents E (VectorStore.load_vectorstore (username i))
       docs d = inr d' -> R d d') ->
  (username i = "michel" ->
   forall d, R d (VectorStore.clear (VectorStore.load_vectorstore (username i)) d)) ->
  keeps R (script E rails_query i).
Proof.
  intros Hadd Hclear. unfold script.
  destruct (authentication_status i) as [[|]|].
  - unfold authenticated.
    apply keeps_bind; [apply keeps_lift|]. intros rails_dict. cbn zeta.
    apply keeps_bind; [apply keeps_draw|]. intros _.
    apply keeps_bind.
    { destruct (upload_submitted i); [|apply keeps_ret].
      apply keeps_on_store. intros s.
      destruct (vectorize_text_db E (VectorStore.load_vectorstore (username i))
                  (uploaded_file i) s) as [->|(docs & d & Hd & ->)];
        [apply R_refl|by eapply Hadd]. }
    intros _. apply keeps_bind; [by apply keeps_drop_form|]. intros _.
    apply keeps_bind; [apply keeps_draw_rails|]. intros _.
    apply keeps_bind; [apply keeps_init_entries|]. intros _.
    apply keeps_bind; [apply keeps_redraw|]. intros _.
    destruct (question i) as [q|]; [|apply keeps_ret].
    destruct (String.eqb q ""); [apply keeps_ret|].
    apply keeps_on_session. intros s.
    destruct (turn_cases E (VectorStore.load_vectorstore (username i)) q s)
      as [-> _]. apply R_refl.
  - apply keeps_bind; [apply keeps_draw|]. intros _. by apply keeps_modify.
  - apply keeps_bind; [apply keeps_draw|]. intros _. by apply keeps_modify.
Qed.

End ScriptFacts.

(** X16. Whatever a logged-in user does in a run of the script, upload,
    drop, ask, and whether or not the run raises, the table of every other
    user is as it was before the run. *)
Theorem script_other_users (E : Env)
    (rails_query : string -> Script.Raised + list (Z * string))
    (i : Script.Inputs) (w : Script.World) (u' : string) :
  Script.username i ≠ u' ->
  VectorStore.rows_of (Script.db (fst (Script.script E rails_query i w)))
    (VectorStore.load_vectorstore u')
  = VectorStore.rows_of (Script.db w) (VectorStore.load_vectorstore u').
Proof.
  intros Hne.
  apply (keeps_script
           (fun d d' => VectorStore.rows_of d' (VectorStore.load_vectorstore u')
                        = VectorStore.rows_of d (VectorStore.load_vectorstore u'))).
  - done.
  - intros d1 d2 d3 H12 H23. by rewrite H23.
  - intros docs d d' Hadd. eapply rows_of_add_ne; [|exact Hadd]. congruence.
  - intros _ d. apply rows_of_clear_ne. congruence.
Qed.

Lemma script_other_users_witness :
  Script.username
    (Script.mkInputs (Some true) "michel" false None true (Some "hi")) ≠ "alice"
  ∧ VectorStore.rows_of
      (Script.db (fst (Script.script sample_env sample_rails
                         (Script.mkInputs (Some true) "michel" false None true
                            (Some "hi"))
                         sample_world)))
      (VectorStore.load_vectorstore "alice")
    = VectorStore.rows_of (Script.db sample_world)
        (VectorStore.load_vectorstore "alice").
Proof.
  assert (H : Script.username
                (Script.mkInputs (Some true) "michel" false None true (Some "hi"))
              ≠ "alice") by discriminate.
  split; [exact H|]. exact (script_other_users _ _ _ _ _ H).
Defined.

(** X17. Only the user [michel] can delete: over any number of runs of
    users other than [michel], every table keeps the rows it had, in order;
    rows are only added after them. *)
Theorem only_michel_deletes (E : Env)
    (rails_query : string -> Script.Raised + list (Z * string))
    (inputs : list Script.Inputs) (w : Script.World) (vs : VectorStore.Cassandra) :
  Forall (fun i => Script.username i ≠ "michel") inputs ->
  VectorStore.rows_of (Script.db w) vs
  `prefix_of` VectorStore.rows_of (Script.db (Script.runs E rails_query inputs w)) vs.
Proof.
  intros Hall. revert w. induction Hall as [|i inputs Hi _ IH]; intros w; [done|].
  cbn. unfold Script.runs in IH. etrans; [|apply IH].
  apply (keeps_script
           (fun d d' => VectorStore.rows_of d vs
                        `prefix_of` VectorStore.rows_of d' vs)).
  - done.
  - intros d1 d2 d3 H12 H23. by etrans.
  - intros docs d d' Hadd. by eapply rows_of_add_prefix.
  - done.
Qed.

Lemma only_michel_deletes_witness :
  Forall (fun i => Script.username i ≠ "michel") [sample_inputs]
  ∧ VectorStore.rows_of (Script.db sample_world) (VectorStore.load_vectorstore "alice")
    `prefix_of`
    VectorStore.rows_of
      (Script.db (Script.runs sample_env sample_rails [sample_inputs] sample_world))
      (VectorStore.load_vectorstore "alice").
Proof.
  assert (H : Forall (fun i => Script.username i ≠ "michel") [sample_inputs])
    by (repeat constructor; discriminate).
  split; [exact H|]. exact (only_michel_deletes _ _ _ _ _ H).
Defined.

(** X18. A run without a successful login returns normally, empties the
    session, no transcript and no memory are left, and leaves the vector
    store as it was. *)
Theorem script_unauthenticated (E : Env)
    (rails_query : string -> Script.Raised + list (Z * string))
    (i : Script.Inputs) (w : Script.World) :
  Script.authentication_status i ≠ Some true ->
  snd (Script.script E rails_query i w) = inr tt
  ∧ Script.session_messages (fst (Script.script E rails_query i w)) = None
  ∧ Script.session_memory (fst (Script.script E rails_query i w)) = None
  ∧ Script.db (fst (Script.script E rails_query i w)) = Script.db w.
Proof.
  intros Hna. unfold Script.script.
  destruct (Script.authentication_status i) as [[|]|]; [done|..]; cbn; done.
Qed.

Lemma script_unauthenticated_witness :
  Script.authentication_status
    (Script.mkInputs None "" false None false None) ≠ Some true
  ∧ Script.session_messages
      (fst (Script.script sample_env sample_rails
              (Script.mkInputs None "" false None false None)
              (fst (Script.script sample_env sample_rails sample_inputs
                      sample_world))))
    = None.
Proof.
  assert (H : Script.authentication_status
                (Script.mkInputs None "" false None false None) ≠ Some true)
    by discriminate.
  split; [exact H|].
  exact (proj1 (proj2 (script_unauthenticated _ _ _ _ H))).
Defined.

Section ScriptRuns.

Import Script.

(** The outcome of a turn, and the transcript and memory it leaves, depend
    on the keyspace, the transcript and the memory only. *)
Lemma turn_congruence E vs q (s1 s2 : App.State) :
  App.db s1 = App.db s2 ->
  App.messages s1 = App.messages s2 ->
  App.memory s1 = App.memory s2 ->
  snd (App.turn E vs q s1) = snd (App.turn E vs q s2)
  ∧ App.messages (fst (App.turn E vs q s1)) = App.messages (fst (App.turn E vs q s2))
  ∧ App.memory (fst (App.turn E vs q s1)) = App.memory (fst (App.turn E vs q s2))
  ∧ App.db (fst (App.turn E vs q s1)) = App.db (fst (App.turn E vs q s2)).
Proof.
  intros Hdb Hm Hmem. rewrite !turn_spec, !chain_invoke_spec.
  cbn [App.asked App.db App.memory App.messages App.set_placeholder
       App.set_chat App.set_messages].
  rewrite Hdb, Hmem.
  destruct (VectorStore.similarity_search E vs q top_k_vectorstore (App.db s2))
    as [e|docs]; [cbn; by rewrite Hdb, Hm, Hmem|].
  destruct (App.chain_prompt E docs
              (Memory.load_memory_variables (App.memory s2)) q) as [e|prompt];
    [cbn; by rewrite Hdb, Hm, Hmem|].
  cbn zeta. destruct (snd (llm_stream E prompt)); cbn; by rewrite Hdb, Hm, Hmem.
Qed.

Lemma bind_returned {A B} (m : M A) (f : A -> M B) w w' a :
  m w = (w', inr a) -> bind m f w = f a w'.
Proof. intros H. unfold bind. by rewrite H. Qed.

Lemma bind_raised {A B} (m : M A) (f : A -> M B) w w' e :
  m w = (w', inl e) -> bind m f w = (w', inl e).
Proof. intros H. unfold bind. by rewrite H. Qed.

Lemma init_entries_spec E w :
  init_entries E w
  = (mkWorld (db w)
       (Some (default [AIMessage (lang_dict E "assistant_welcome")]
                (session_messages w)))
       (Some (default Memory.new (session_memory w)))
       (chat w) (placeholder w) (notices w) (tempfiles w) (widgets w),
     inr tt).
Proof.
  destruct w as [d [ms|] [m|] c p n t ws]; reflexivity.
Qed.

Lemma drop_form_quiet E i w :
  drop_submitted i = false ->
  drop_form E i w
  = (add_widgets (if String.eqb (username i) "michel"
                  then [Caption (lang_dict E "drop_context")]
                  else []) w, inr tt).
Proof.
  intros Hdrop. unfold drop_form. rewrite Hdrop.
  destruct (String.eqb (username i) "michel").
  - reflexivity.
  - unfold ret. by rewrite add_widgets_nil.
Qed.

(** The script up to the chat input, when no form was submitted and the
    rails have their two heads. *)
Lemma authenticated_quiet E (rails_query : string -> Raised + list (Z * string))
    i w d head caption :
  upload_submitted i = false ->
  drop_submitted i = false ->
  Bundles.rails rails_query (username i) = inr d ->
  Dict.getitem 0%Z d = Some head ->
  Dict.getitem 1%Z d = Some caption ->
  exists w1,
    db w1 = db w
    ∧ session_messages w1
      = Some (default [AIMessage (lang_dict E "assistant_welcome")]
                (session_messages w))
    ∧ session_memory w1 = Some (default Memory.new (session_memory w))
    ∧ authenticated E rails_query i w
      = match question i with
        | None => (w1, inr tt)
        | Some q =>
            if String.eqb q "" then (w1, inr tt)
            else on_session (App.turn E (VectorStore.load_vectorstore (username i)) q) w1
        end.
Proof.
  intros Hup Hdrop Hd H0 H1. unfold authenticated.
  rewrite (bind_returned _ _ w w d) by (unfold lift; by rewrite Hd).
  cbn zeta.
  set (wa := add_widgets [Title (lang_dict E "title")] w).
  set (wb := add_widgets (if String.eqb (username i) "michel"
                          then [Caption (lang_dict E "drop_context")]
                          else []) wa).
  set (wc := add_widgets
               ([Subheader head; Caption caption]
                ++ map (fun kv => Markdown (str_int (fst kv - 1) +:+ ". " +:+ snd kv))
                     (filter (fun kv => (1 < fst kv)%Z) d)) wb).
  set (wd := mkWorld (db wc)
               (Some (default [AIMessage (lang_dict E "assistant_welcome")]
                        (session_messages wc)))
               (Some (default Memory.new (session_memory wc)))
               (chat wc) (placeholder wc) (notices wc) (tempfiles wc) (widgets wc)).
  set (w1 := set_chat
               (chat wd ++ map (fun m => (message_type m, content_of m))
                             (default [AIMessage (lang_dict E "assistant_welcome")]
                                (session_messages wc))) wd).
  exists w1. split; [reflexivity|]. split; [reflexivity|]. split; [reflexivity|].
  rewrite (bind_returned _ _ w wa tt) by reflexivity.
  rewrite (bind_returned _ _ wa wa tt) by (by rewrite Hup).
  rewrite (bind_returned _ _ wa wb tt) by (by apply drop_form_quiet).
  rewrite (bind_returned _ _ wb wc tt)
    by (by rewrite draw_rails_spec, H0, H1).
  rewrite (bind_returned _ _ wc wd tt) by apply init_entries_spec.
  rewrite (bind_returned _ _ wd w1 tt) by reflexivity.
  destruct (question i) as [q|]; [|reflexivity].
  destruct (String.eqb q ""); reflexivity.
Qed.

(** The script up to the rails, when no form was submitted and the rails
    lack the key 0. *)
Lemma authenticated_headless E (rails_query : string -> Raised + list (Z * string))
    i w d :
  upload_submitted i = false ->
  drop_submitted i = false ->
  Bundles.rails rails_query (username i) = inr d ->
  Dict.getitem 0%Z d = None ->
  authenticated E rails_query i w
  = (add_widgets (if String.eqb (username i) "michel"
                  then [Caption (lang_dict E "drop_context")]
                  else [])
       (add_widgets [Title (lang_dict E "title")] w),
     inl (IntKeyError 0)).
Proof.
  intros Hup Hdrop Hd H0. unfold authenticated.
  rewrite (bind_returned _ _ w w d) by (unfold lift; by rewrite Hd).
  cbn zeta.
  set (wa := add_widgets [Title (lang_dict E "title")] w).
  set (wb := add_widgets (if String.eqb (username i) "michel"
                          then [Caption (lang_dict E "drop_context")]
                          else []) wa).
  rewrite (bind_returned _ _ w wa tt) by reflexivity.
  rewrite (bind_returned _ _ wa wa tt) by (by rewrite Hup).
  rewrite (bind_returned _ _ wa wb tt) by (by apply drop_form_quiet).
  rewrite (bind_raised _ _ wb wb (IntKeyError 0))
    by (by rewrite draw_rails_spec, H0).
  reflexivity.
Qed.

End ScriptRuns.

(** X19. A user for whom the query returns a frame without a row with key 0
    cannot chat: in a run in which no form was submitted, the script raises
    KeyError 0 while drawing the rails, before the chat input is read; the
    question is neither answered nor recorded, and the session and the
    vector store are as before. *)
Theorem script_rails_missing (E : Env)
    (rails_query : string -> Script.Raised + list (Z * string))
    (i : Script.Inputs) (w : Script.World) (df : list (Z * string)) :
  Script.authentication_status i = Some true ->
  Script.upload_submitted i = false ->
  Script.drop_submitted i = false ->
  rails_query (Script.username i) = inr df ->
  Forall (fun kv => fst kv ≠ 0%Z) df ->
  snd (Script.script E rails_query i w) = inl (Script.IntKeyError 0)
  ∧ Script.db (fst (Script.script E rails_query i w)) = Script.db w
  ∧ Script.session_messages (fst (Script.script E rails_query i w))
    = Script.session_messages w
  ∧ Script.session_memory (fst (Script.script E rails_query i w))
    = Script.session_memory w
  ∧ Script.chat (fst (Script.script E rails_query i w)) = Script.chat w.
Proof.
  intros Hauth Hup Hdrop Hq Hnone.
  unfold Script.script. rewrite Hauth.
  rewrite (authenticated_headless E rails_query i w
             (Bundles.comprehension (map fst df) (map snd df)) Hup Hdrop).
  - done.
  - unfold Bundles.rails. by rewrite Hq.
  - by rewrite getitem_comprehension, (filter_key_absent df 0%Z Hnone).
Qed.

Lemma script_rails_missing_witness :
  sample_rails "carol" = inr []
  ∧ snd (Script.script sample_env sample_rails
           (Script.mkInputs (Some true) "carol" false None false (Some "hi"))
           sample_world)
    = inl (Script.IntKeyError 0).
Proof.
  assert (H : sample_rails "carol" = inr []) by (vm_compute; reflexivity).
  split; [exact H|].
  exact (proj1 (script_rails_missing sample_env sample_rails
                  (Script.mkInputs (Some true) "carol" false None false (Some "hi"))
                  sample_world [] eq_refl eq_refl eq_refl H (Forall_nil_2 _))).
Defined.

(** X20. A run in which a user with rails only looks at the page, with no
    form submitted and no question, returns normally, creates the
    transcript (the welcome message) and the memory (empty, k = 3) when
    they are missing and keeps them as they are when they are there, and
    leaves the vector store as it was. *)
Theorem script_keeps_session (E : Env)
    (rails_query : string -> Script.Raised + list (Z * string))
    (i : Script.Inputs) (w : Script.World) (d : list (Z * string))
    (head caption : string) :
  Script.authentication_status i = Some true ->
  Script.upload_submitted i = false ->
  Script.drop_submitted i = false ->
  Script.question i = None ->
  Bundles.rails rails_query (Script.username i) = inr d ->
  Dict.getitem 0%Z d = Some head ->
  Dict.getitem 1%Z d = Some caption ->
  snd (Script.script E rails_query i w) = inr tt
  ∧ Script.session_messages (fst (Script.script E rails_query i w))
    = Some (default [AIMessage (lang_dict E "assistant_welcome")]
              (Script.session_messages w))
  ∧ Script.session_memory (fst (Script.script E rails_query i w))
    = Some (default Memory.new (Script.session_memory w))
  ∧ Script.db (fst (Script.script E rails_query i w)) = Script.db w.
Proof.
  intros Hauth Hup Hdrop Hq Hd H0 H1.
  unfold Script.script. rewrite Hauth.
  destruct (authenticated_quiet E rails_query i w d head caption Hup Hdrop Hd H0 H1)
    as (w1 & Hdb & Hms & Hmem & ->).
  rewrite Hq. cbn. done.
Qed.

Lemma script_keeps_session_witness :
  Bundles.rails sample_rails "alice"
  = inr [(0%Z, "Getting started"); (1%Z, "Try these"); (2%Z, "Ask a question")]
  ∧ Script.session_messages
      (fst (Script.script sample_env sample_rails
              (Script.mkInputs (Some true) "alice" false None false None)
              sample_world))
    = Some [AIMessage "assistant_welcome"].
Proof.
  assert (Hd : Bundles.rails sample_rails "alice"
               = inr [(0%Z, "Getting started"); (1%Z, "Try these");
                      (2%Z, "Ask a question")])
    by (vm_compute; reflexivity).
  split; [exact Hd|].
  exact (proj1 (proj2 (script_keeps_session sample_env sample_rails
                         (Script.mkInputs (Some true) "alice" false None false None)
                         sample_world _ _ _ eq_refl eq_refl eq_refl eq_refl Hd
                         eq_refl eq_refl))).
Defined.

(** X21. A question asked in a run of the script is one turn on the session:
    when no form was submitted, the rails have their two heads and the
    session has its transcript and memory, the run ends as the turn on
    that transcript and memory ends, and leaves the transcript and memory
    the turn leaves. *)
Theorem script_question_is_turn (E : Env)
    (rails_query : string -> Script.Raised + list (Z * string))
    (i : Script.Inputs) (w : Script.World) (d : list (Z * string))
    (head caption q : string)
    (ms : list Message) (m : Memory.ConversationBufferWindowMemory) :
  Script.authentication_status i = Some true ->
  Script.upload_submitted i = false ->
  Script.drop_submitted i = false ->
  Bundles.rails rails_query (Script.username i) = inr d ->
  Dict.getitem 0%Z d = Some head ->
  Dict.getitem 1%Z d = Some caption ->
  Script.question i = Some q ->
  q ≠ "" ->
  Script.session_messages w = Some ms ->
  Script.session_memory w = Some m ->
  let r := App.turn E (VectorStore.load_vectorstore (Script.username i)) q
             (Script.to_app ms m w) in
  snd (Script.script E rails_query i w) = Script.raised (snd r)
  ∧ Script.session_messages (fst (Script.script E rails_query i w))
    = Some (App.messages (fst r))
  ∧ Script.session_memory (fst (Script.script E rails_query i w))
    = Some (App.memory (fst r))
  ∧ Script.db (fst (Script.script E rails_query i w)) = Script.db w.
Proof.
  intros Hauth Hup Hdrop Hd H0 H1 Hq Hne Hms Hmem. cbn zeta.
  unfold Script.script. rewrite Hauth.
  destruct (authenticated_quiet E rails_query i w d head caption Hup Hdrop Hd H0 H1)
    as (w1 & Hdb & Hms1 & Hmem1 & ->).
  rewrite Hq. destruct (String.eqb_spec q "") as [|_]; [done|].
  rewrite Hms in Hms1. rewrite Hmem in Hmem1. cbn in Hms1, Hmem1.
  unfold Script.on_session. rewrite Hms1, Hmem1.
  cbn [fst snd Script.of_app Script.session_messages Script.session_memory
       Script.db].
  destruct (turn_congruence E (VectorStore.load_vectorstore (Script.username i)) q
              (Script.to_app ms m w1) (Script.to_app ms m w))
    as (Hs & Hm' & Hmem' & Hdb'); [exact Hdb|done|done|].
  rewrite Hs, Hm', Hmem', Hdb'.
  destruct (turn_cases E (VectorStore.load_vectorstore (Script.username i)) q
              (Script.to_app ms m w)) as [-> _]. done.
Qed.

Lemma script_question_is_turn_witness :
  Bundles.rails sample_rails "alice"
  = inr [(0%Z, "Getting started"); (1%Z, "Try these"); (2%Z, "Ask a question")]
  ∧ "hi" ≠ ""
  ∧ Script.session_messages
      (fst (Script.script sample_env sample_rails sample_inputs
              (Script.mkWorld ∅ (Some []) (Some Memory.new) [] [] [] [] [])))
    = Some (App.messages
              (fst (App.turn sample_env (VectorStore.load_vectorstore "alice") "hi"
                      (Script.to_app [] Memory.new
                         (Script.mkWorld ∅ (Some []) (Some Memory.new)
                            [] [] [] [] []))))).
Proof.
  assert (Hd : Bundles.rails sample_rails "alice"
               = inr [(0%Z, "Getting started"); (1%Z, "Try these");
                      (2%Z, "Ask a question")])
    by (vm_compute; reflexivity).
  assert (Hne : "hi" ≠ "") by discriminate.
  split; [exact Hd|]. split; [exact Hne|].
  exact (proj1 (proj2 (script_question_is_turn sample_env sample_rails sample_inputs
                         (Script.mkWorld ∅ (Some []) (Some Memory.new) [] [] [] [] [])
                         _ _ _ "hi" [] Memory.new
                         eq_refl eq_refl eq_refl Hd eq_refl eq_refl eq_refl Hne
                         eq_refl eq_refl))).
Defined.

(** X22. The drop form needs the memory entry: when [michel] submits it in a
    run in which the session has no memory yet, then, unless the query of
    the rails raised at the start of the run, the script raises
    AttributeError for [memory] after it has cleared the table and reset
    the transcript to the welcome message. When the query raised, the run
    ended there with nothing changed. *)
Theorem drop_without_memory (E : Env)
    (rails_query : string -> Script.Raised + list (Z * string))
    (i : Script.Inputs) (w : Script.World) :
  Script.authentication_status i = Some true ->
  Script.username i = "michel" ->
  Script.upload_submitted i = false ->
  Script.drop_submitted i = true ->
  Script.session_memory w = None ->
  match rails_query "michel" with
  | inl e => Script.script E rails_query i w = (w, inl e)
  | inr _ =>
      snd (Script.script E rails_query i w) = inl (Script.AttributeError "memory")
      ∧ VectorStore.rows_of (Script.db (fst (Script.script E rails_query i w)))
          (VectorStore.load_vectorstore "michel") = []
      ∧ Script.session_messages (fst (Script.script E rails_query i w))
        = Some [AIMessage (lang_dict E "assistant_welcome")]
      ∧ Script.session_memory (fst (Script.script E rails_query i w)) = None
  end.
Proof.
  intros Hauth Hu Hup Hdrop Hmem.
  unfold Script.script. rewrite Hauth. unfold Script.authenticated.
  rewrite Hup, Hu. unfold Script.bind at 1, Script.lift, Bundles.rails.
  destruct (rails_query "michel") as [e|df]; [reflexivity|]. cbn zeta.
  unfold Script.bind at 1, Script.draw at 1, Script.modify at 1.
  unfold Script.bind at 1, Script.ret at 1.
  unfold Script.bind at 1, Script.drop_form. rewrite Hdrop, Hu.
  cbn [String.eqb Ascii.eqb Bool.eqb].
  unfold Script.bind, Script.draw, Script.modify. cbn. rewrite Hmem. cbn.
  rewrite rows_of_clear. done.
Qed.

Lemma drop_without_memory_witness :
  Script.session_memory sample_world = None
  ∧ snd (Script.script sample_env sample_rails
           (Script.mkInputs (Some true) "michel" false None true None)
           sample_world)
    = inl (Script.AttributeError "memory").
Proof.
  assert (H : Script.session_memory sample_world = None) by reflexivity.
  split; [exact H|].
  exact (proj1 (drop_without_memory sample_env sample_rails
                  (Script.mkInputs (Some true) "michel" false None true None)
                  sample_world eq_refl eq_refl eq_refl eq_refl H)).
Defined.

(** X23. The rails are read first: when reading [rails.csv] or the query for
    the logged-in user raises, as pandas does for a user name with a line
    feed, the run ends with that exception before anything is drawn, and
    the session and the vector store are as before. *)
Theorem script_rails_query_raises (E : Env)
    (rails_query : string -> Script.Raised + list (Z * string))
    (i : Script.Inputs) (w : Script.World) (e : Script.Raised) :
  Script.authentication_status i = Some true ->
  rails_query (Script.username i) = inl e ->
  Script.script E rails_query i w = (w, inl e).
Proof.
  intros Hauth Hq. unfold Script.script. rewrite Hauth.
  unfold Script.authenticated, Script.bind at 1, Script.lift, Bundles.rails.
  by rewrite Hq.
Qed.

Lemma script_rails_query_raises_witness :
  sample_rails (String "010" "alice") = inl (Script.Exception ValueError)
  ∧ Script.script sample_env sample_rails
      (Script.mkInputs (Some true) (String "010" "alice") true None false
         (Some "hi"))
      sample_world
    = (sample_world, inl (Script.Exception ValueError)).
Proof.
  assert (H : sample_rails (String "010" "alice") = inl (Script.Exception ValueError))
    by (vm_compute; reflexivity).
  split; [exact H|].
  exact (script_rails_query_raises sample_env sample_rails
           (Script.mkInputs (Some true) (String "010" "alice") true None false
              (Some "hi"))
           sample_world _ eq_refl H).
Defined.
